(** * parallel-IR: the cached TF-IDF retrieval of [information-retrieval.ipynb]

    The notebook keeps its index and its cache in module-level names
    ([docs], [doc_ids], [tfidf_vectorizer], [tfidf_matrix], [query_cache]) and
    reads them from one function, [retrieve_with_cache].  The development
    below embeds those names as a record, the notebook's cells as state
    transformers, and the function as a state-passing definition that can
    raise the one exception list indexing can raise. *)

From Stdlib Require Import QArith Sorted Permutation.
From stdpp Require Import gmap strings list fin_maps sorting.

Local Open Scope Z_scope.

(** ** Library interfaces

    Two library calls decide what [retrieve_with_cache] returns and are code
    of scikit-learn and NumPy, not of the notebook: the fitted vectorizer with
    [cosine_similarity], and [np.argsort].  They are taken as interfaces.
    Scores are 64-bit floats in Python; only their order matters to the
    retrieval logic, so they are rationals here. *)

(** [similarity fitted q d]: the entry of
    [cosine_similarity(tfidf_vectorizer.transform([q]), tfidf_matrix)] in the
    row of document [d], for a vectorizer and matrix fitted on the document
    texts [fitted]. *)
Class Vectorizer := {
  similarity : list string -> string -> string -> Q
}.

(** [np.argsort v]: "the indices that would sort" [v], ascending.  NumPy's
    default sort kind is not stable, so nothing is promised about the order
    of indices whose values are equal. *)
Class ArgSort := {
  argsort : list Q -> list nat;
  argsort_perm : forall v, Permutation (argsort v) (seq 0 (length v));
  argsort_sorted : forall v,
    StronglySorted (fun i j => (nth i v 0 <= nth j v 0)%Q) (argsort v)
}.

(** ** Python values and exceptions *)

Inductive exn : Set :=
| IndexError.

Inductive outcome (A : Type) : Type :=
| Ok (a : A)
| Raise (e : exn).
Arguments Ok {A} a.
Arguments Raise {A} e.

(** A Ranked Result: the list of [(doc_id, score)] tuples the function builds. *)
Abbreviation ranked := (list (string * Q)).

(** [l[:k]] for a Python int [k]: the first [k] elements, and for a negative
    [k] all but the last [-k]. *)
Definition slice_to {A : Type} (k : Z) (l : list A) : list A :=
  if 0 <=? k then firstn (Z.to_nat k) l
  else firstn (length l - Z.to_nat (- k)) l.

(** [l[i]] for a non-negative index: [IndexError] past the end. *)
Definition index {A : Type} (l : list A) (i : nat) : outcome A :=
  match nth_error l i with
  | Some x => Ok x
  | None => Raise IndexError
  end.

(** A list comprehension whose element expression can raise: elements are
    evaluated left to right and the first exception ends the evaluation. *)
Fixpoint comprehension {A B : Type} (f : A -> outcome B) (l : list A)
  : outcome (list B) :=
  match l with
  | [] => Ok []
  | a :: l' =>
      match f a with
      | Raise e => Raise e
      | Ok b =>
          match comprehension f l' with
          | Raise e => Raise e
          | Ok bs => Ok (b :: bs)
          end
      end
  end.

(** ** The notebook's global names *)

Record notebook : Type := {
  doc_ids : list string;
  (** [tfidf_vectorizer] and [tfidf_matrix] are determined by the document
      texts [docs] they were fitted on, and the matrix has one row per text:
      the field holds those texts, in row order. *)
  tfidf_matrix : list string;
  query_cache : gmap string ranked;
  (** Call-count probe on the scorer: how many times the similarity of a
      query against the matrix has been computed.  Not a name of the
      notebook; it observes the miss path. *)
  scorer_calls : nat
}.

Definition set_cache (c : gmap string ranked) (nb : notebook) : notebook :=
  {| doc_ids := doc_ids nb; tfidf_matrix := tfidf_matrix nb;
     query_cache := c; scorer_calls := scorer_calls nb |}.

Definition count_scorer (nb : notebook) : notebook :=
  {| doc_ids := doc_ids nb; tfidf_matrix := tfidf_matrix nb;
     query_cache := query_cache nb; scorer_calls := S (scorer_calls nb) |}.

(** Before any cell has run. *)
Definition blank : notebook :=
  {| doc_ids := []; tfidf_matrix := []; query_cache := ∅; scorer_calls := 0 |}.

Section Retrieval.
Context {V : Vectorizer} {A : ArgSort}.

(** [cosine_similarity(query_vec, tfidf_matrix).flatten()]: one score per
    row of the matrix, in row order. *)
Definition cos_sim (nb : notebook) (query_text : string) : list Q :=
  map (similarity (tfidf_matrix nb) query_text) (tfidf_matrix nb).

(** [np.argsort(cos_sim)[::-1][:top_k]] *)
Definition top_doc_indices (scores : list Q) (top_k : Z) : list nat :=
  slice_to top_k (rev (argsort scores)).

(** [[(doc_ids[i], cos_sim[i]) for i in top_doc_indices]].  [cos_sim[i]] is
    always in range, [i] being an index of [cos_sim]. *)
Definition results_of (ids : list string) (scores : list Q) (top : list nat)
  : outcome ranked :=
  comprehension
    (fun i => match index ids i with
              | Ok d => Ok (d, nth i scores 0%Q)
              | Raise e => Raise e
              end) top.

(** The miss path of [retrieve_with_cache], from the similarity computation
    to the list of results. *)
Definition compute_results (nb : notebook) (query_text : string) (top_k : Z)
  : outcome ranked :=
  let scores := cos_sim nb query_text in
  results_of (doc_ids nb) scores (top_doc_indices scores top_k).

(** [def retrieve_with_cache(query_text, top_k=10)]: the cached list when
    the query text is a key of [query_cache]; otherwise the similarities are
    computed, the list is built, stored under the query text and returned.
    An exception leaves before the store. *)
Definition retrieve_with_cache (query_text : string) (top_k : Z) (nb : notebook)
  : outcome ranked * notebook :=
  match query_cache nb !! query_text with
  | Some cached => (Ok cached, nb)
  | None =>
      let nb1 := count_scorer nb in
      match compute_results nb query_text top_k with
      | Raise e => (Raise e, nb1)
      | Ok results => (Ok results, set_cache (<[query_text := results]> (query_cache nb)) nb1)
      end
  end.

(** The default of the parameter [top_k]. *)
Definition default_top_k : Z := 10.

(** The cell "Setup and Manual TF-IDF Construction": [docs] and [doc_ids]
    are read off the dataset, the vectorizer is fitted on [docs].  It assigns
    nothing else. *)
Definition build_tfidf (dataset : list (string * string)) (nb : notebook) : notebook :=
  {| doc_ids := map fst dataset; tfidf_matrix := map snd dataset;
     query_cache := query_cache nb; scorer_calls := scorer_calls nb |}.

(** The cell "Caching Similarity Results": [query_cache = {}] (and the
    definition of the function). *)
Definition cache_cell (nb : notebook) : notebook := set_cache ∅ nb.

(** The cell "Load previously saved data": the index names are read from
    the files of [cache/], and so is [query_cache], as it was saved; a
    missing cache file ([FileNotFoundError]) gives the empty dictionary. *)
Definition load_cell (saved_doc_ids saved_matrix : list string)
  (saved_cache : option (gmap string ranked)) (nb : notebook) : notebook :=
  {| doc_ids := saved_doc_ids; tfidf_matrix := saved_matrix;
     query_cache := match saved_cache with Some c => c | None => ∅ end;
     scorer_calls := scorer_calls nb |}.

(** What the comprehension builds when no index is out of range. *)
Definition ranking (nb : notebook) (query_text : string) (top_k : Z) : ranked :=
  let scores := cos_sim nb query_text in
  map (fun i => (nth i (doc_ids nb) ""%string, nth i scores 0%Q))
      (top_doc_indices scores top_k).

(** Calls made one after the other, each returning before the next starts;
    what they return is dropped. *)
Definition run_calls (calls : list (string * Z)) (nb : notebook) : notebook :=
  fold_left (fun nb c => snd (retrieve_with_cache (fst c) (snd c) nb)) calls nb.

(** *** Callers interleaved at statement boundaries

    The function takes no lock, so a second caller can run between any two
    of its statements.  [query_cache] is the only name it assigns, and it
    touches it twice: the membership test with the read of a hit, and the
    store.  A caller is therefore at one of four points: before the test,
    after a failed test, after building [results], or returned. *)
Inductive caller : Type :=
| AtTest
| AtCompute
| AtStore (results : ranked)
| Returned (o : outcome ranked).

Definition caller_step (query_text : string) (top_k : Z) (c : caller) (nb : notebook)
  : caller * notebook :=
  match c with
  | AtTest =>
      match query_cache nb !! query_text with
      | Some cached => (Returned (Ok cached), nb)
      | None => (AtCompute, nb)
      end
  | AtCompute =>
      match compute_results nb query_text top_k with
      | Raise e => (Returned (Raise e), count_scorer nb)
      | Ok results => (AtStore results, count_scorer nb)
      end
  | AtStore results =>
      (Returned (Ok results),
       set_cache (<[query_text := results]> (query_cache nb)) nb)
  | Returned o => (Returned o, nb)
  end.

(** One step of caller number [i] of the pool.  Every caller carries the
    [top_k] it was called with. *)
Definition pool_step (query_text : string) (i : nat)
  (st : list (Z * caller) * notebook) : list (Z * caller) * notebook :=
  match fst st !! i with
  | Some (top_k, c) =>
      let '(c', nb') := caller_step query_text top_k c (snd st) in
      (<[i := (top_k, c')]> (fst st), nb')
  | None => st
  end.

(** A schedule names which caller moves next. *)
Definition run_schedule (query_text : string) (schedule : list nat)
  (st : list (Z * caller) * notebook) : list (Z * caller) * notebook :=
  fold_left (fun st i => pool_step query_text i st) schedule st.

(** Callers about to start, one for each [top_k] of the list. *)
Definition callers (ks : list Z) : list (Z * caller) :=
  map (fun top_k => (top_k, AtTest)) ks.

End Retrieval.

(** ** Properties of a notebook and of a result *)

(** [doc_ids] has one id per row of [tfidf_matrix], as after the cell that
    builds both from one pass over the dataset. *)
Definition consistent (nb : notebook) : Prop :=
  length (doc_ids nb) = length (tfidf_matrix nb).

Definition descending (r : ranked) : Prop :=
  StronglySorted (fun a b => (snd b <= snd a)%Q) r.

(** Neighbours with equal scores are in strictly ascending [doc_id] order
    (in a list that is descending by score, equal scores are neighbours). *)
Fixpoint ties_ascending (r : ranked) : bool :=
  match r with
  | a :: (b :: _) as r' =>
      (if Qeq_bool (snd a) (snd b) then String.ltb (fst a) (fst b) else true)
      && ties_ascending r'
  | _ => true
  end.

(** Every list the cache holds is in descending score order. *)
Definition cache_descending (nb : notebook) : Prop :=
  map_Forall (fun _ r => descending r) (query_cache nb).

(** No row among [top] has the score of another row. *)
Definition untied_top (v : list Q) (top : list nat) : Prop :=
  forall i j x y,
    i ∈ top -> v !! i = Some x -> v !! j = Some y -> (x == y)%Q -> i = j.

(** The scores a fitted vectorizer gives do not depend on the order in which
    the texts were passed to [fit_transform]. *)
Definition fit_order_independent (V : Vectorizer) : Prop :=
  forall (l l' : list string) (q d : string),
    Permutation l l' -> similarity l q d = similarity l' q d.

Definition returned (c : caller) : bool :=
  match c with Returned _ => true | _ => false end.

(** 1 for a caller that is past the membership test and will not compute
    (again): it has computed, or it has returned. *)
Definition past_compute (c : caller) : nat :=
  match c with AtTest | AtCompute => 0 | _ => 1 end.

Definition past_count (pool : list caller) : nat :=
  sum_list (map past_compute pool).

(** ** Instances used to run the model

    [insertion_argsort] sorts the indices by insertion, keeping equal values in
    index order (what NumPy's scalar quicksort does on short arrays).
    [overlap_vectorizer] weighs every query term found in a document by a
    rational inverse document frequency.  It stands in for scikit-learn's
    weighting (logarithms and L2 norms in floats) where a concrete corpus is
    evaluated; like the library's, its score is zero for a document that
    shares no term with the query and it does not depend on the order in
    which the texts were fitted. *)

Fixpoint insert_index (v : list Q) (i : nat) (l : list nat) : list nat :=
  match l with
  | [] => [i]
  | j :: l' =>
      if Qle_bool (nth j v 0%Q) (nth i v 0%Q) then j :: insert_index v i l'
      else i :: j :: l'
  end.

Definition insertion_argsort (v : list Q) : list nat :=
  fold_left (fun acc i => insert_index v i acc) (seq 0 (length v)) [].

Definition tokens (text : string) : list string := String.words text.

Definition tf (t text : string) : nat :=
  length (filter (fun w => w = t) (tokens text)).

Definition df (fitted : list string) (t : string) : nat :=
  length (filter (fun text => t ∈ tokens text) fitted).

Definition idf (fitted : list string) (t : string) : Q :=
  (1 + Z.of_nat (length fitted)) # Pos.of_succ_nat (df fitted t).

Definition overlap_similarity (fitted : list string) (q d : string) : Q :=
  Qred (fold_right Qplus 0%Q
          (map (fun t => (inject_Z (Z.of_nat (tf t d)) * idf fitted t)%Q) (tokens q))).


Definition overlap_vectorizer : Vectorizer :=
  {| similarity := overlap_similarity |}.

(** ** Corpora

    [sample_dataset] is the corpus of the specification's scenario. *)

Definition sample_dataset : list (string * string) :=
  [("d1", "the cat sat"); ("d2", "the dog sat"); ("d3", "cats and dogs")]%string.

Definition other_dataset : list (string * string) :=
  [("e1", "cat cat"); ("e2", "a bird")]%string.

Definition twin_dataset : list (string * string) :=
  [("d1", "cat"); ("d2", "cat")]%string.

(** The top_k of two callers. *)
Definition sat_top_ks : list Z := [1; 2].

(** The corpus of the specification's scenario, indexed by a fresh notebook. *)
Definition sample_nb : notebook := build_tfidf sample_dataset blank.

(** ** The other cells of the notebook *)

(** *** "Cosine Similarity Ranking (Single Query)"

    The cell ranks the first query of [topics_df] without the cache and
    prints a header and one line per ranked document.  A printed line is kept
    as the values it shows; the score is shown to four decimals in Python and
    is kept whole here. *)
Inductive printed : Type :=
| QueryLine (query : string)
| RankLine (rank : nat) (doc_id : string) (score : Q).

(** [top_n = 10] *)
Definition top_n : Z := 10.

(** [for rank, idx in enumerate(top_doc_indices): print(rank + 1, doc_ids[idx],
    cos_sim[idx])], with [rank] the count so far: the lines printed, and how
    the loop ends.  An [IndexError] keeps what was printed before it. *)
Fixpoint print_ranking (ids : list string) (scores : list Q) (rank : nat)
  (top : list nat) : list printed * outcome unit :=
  match top with
  | [] => ([], Ok tt)
  | idx :: top' =>
      match index ids idx with
      | Raise e => ([], Raise e)
      | Ok d =>
          let '(lines, o) := print_ranking ids scores (S rank) top' in
          (RankLine (S rank) d (nth idx scores 0%Q) :: lines, o)
      end
  end.

Section Cells.
Context {V : Vectorizer} {A : ArgSort}.

(** The cell, given the column [topics_df["query"]].  [iloc[0]] raises
    [IndexError] on a frame without rows, before anything is printed. *)
Definition single_query_cell (queries : list string) (nb : notebook)
  : list printed * outcome unit :=
  match queries with
  | [] => ([], Raise IndexError)
  | sample_query :: _ =>
      let scores := cos_sim nb sample_query in
      let top := top_doc_indices scores top_n in
      let '(lines, o) := print_ranking (doc_ids nb) scores 0 top in
      (QueryLine sample_query :: lines, o)
  end.

End Cells.

(** *** "Preprocess queries: strip punctuation"

    [str.replace(r"[^\w\s]", "", regex=True)] deletes every character that
    is neither a word character nor whitespace.  A Rocq string stands for a
    Python string of code points below 128 ([ascii_text]); on those, [\w]
    is the letters, the digits and the underscore, and [\s] is the
    characters 9 to 13, 28 to 31 and the space. *)
Definition is_word (c : Ascii.ascii) : bool :=
  let n := Ascii.nat_of_ascii c in
  ((48 <=? n) && (n <=? 57) || (65 <=? n) && (n <=? 90) ||
   (n =? 95) || (97 <=? n) && (n <=? 122))%nat.

Definition is_space (c : Ascii.ascii) : bool :=
  let n := Ascii.nat_of_ascii c in
  ((9 <=? n) && (n <=? 13) || (28 <=? n) && (n <=? 32))%nat.

Definition kept (c : Ascii.ascii) : bool := is_word c || is_space c.

Fixpoint strip_punctuation (s : string) : string :=
  match s with
  | EmptyString => EmptyString
  | String c s' =>
      if kept c then String c (strip_punctuation s') else strip_punctuation s'
  end.

(** The assignment to the column [topics_df["query"]]. *)
Definition preprocess_queries (queries : list string) : list string :=
  map strip_punctuation queries.

Fixpoint string_forall (P : Ascii.ascii -> bool) (s : string) : bool :=
  match s with
  | EmptyString => true
  | String c s' => P c && string_forall P s'
  end.

Definition ascii_text (s : string) : Prop :=
  string_forall (fun c => (Ascii.nat_of_ascii c <? 128)%nat) s = true.

(** *** "Convert iterators to DataFrames"

    The cell builds [topics_df] and [qrels_df] anew from the dataset's
    iterators and renames their columns.  A frame is its column labels, in
    order, and its rows.  [df.rename(columns=mapper)] replaces every label
    that is a key of [mapper] by its value, keeps the other labels and does
    not touch the rows; the cell passes the entries of its mapping whose key
    is a column of the frame. *)
Record frame (cell : Type) : Type := {
  columns : list string;
  rows : list (list cell)
}.
Arguments columns {cell} _.
Arguments rows {cell} _.

Definition rename_columns (mapper : gmap string string) (labels : list string)
  : list string :=
  map (fun c => match mapper !! c with Some v => v | None => c end) labels.

Definition rename {cell : Type} (mapper : gmap string string) (df : frame cell)
  : frame cell :=
  {| columns := rename_columns mapper (columns df); rows := rows df |}.

(** [{k: v for k, v in mapping.items() if k in df.columns}] *)
Definition present_only (mapping : gmap string string) (labels : list string)
  : gmap string string :=
  filter (fun kv => kv.1 ∈ labels) mapping.

Definition topics_mapping : gmap string string :=
  {[ "query_id" := "qid"; "text" := "query" ]}%string.

Definition qrels_mapping : gmap string string :=
  {[ "query_id" := "qid"; "doc_id" := "docno"; "relevance" := "label" ]}%string.

(** The cell, given [pd.DataFrame(dataset.queries_iter())] and
    [pd.DataFrame(dataset.qrels_iter())]: the new [topics_df] and
    [qrels_df].  Whatever the two names held before is replaced. *)
Definition convert_cell {cell : Type} (queries qrels : frame cell)
  : frame cell * frame cell :=
  (rename (present_only topics_mapping (columns queries)) queries,
   rename (present_only qrels_mapping (columns qrels)) qrels).

(** ** Facts about slices, comprehensions and the ranking *)

Lemma slice_to_length {A : Type} (k : Z) (l : list A) :
  length (slice_to k l) =
  if 0 <=? k then Nat.min (Z.to_nat k) (length l)
  else (length l - Z.to_nat (- k))%nat.
Proof.
  unfold slice_to. destruct (0 <=? k); rewrite length_firstn; lia.
Qed.

Lemma slice_to_prefix {A : Type} (k : Z) (l : list A) :
  exists rest, l = slice_to k l ++ rest.
Proof.
  unfold slice_to. destruct (0 <=? k);
    eexists; symmetry; apply firstn_skipn.
Qed.

Lemma comprehension_ok {A B : Type} (f : A -> outcome B) (g : A -> B) (l : list A) :
  Forall (fun a => f a = Ok (g a)) l -> comprehension f l = Ok (map g l).
Proof.
  induction 1 as [|a l Ha _ IH]; simpl; [reflexivity|].
  now rewrite Ha, IH.
Qed.

Lemma index_ok {A : Type} (d : A) (l : list A) (i : nat) :
  (i < length l)%nat -> index l i = Ok (nth i l d).
Proof.
  intros Hi. unfold index.
  destruct (nth_error l i) as [x|] eqn:E.
  - f_equal. symmetry. now apply nth_error_nth.
  - apply nth_error_None in E. lia.
Qed.

Lemma lookup_nth {A : Type} (d : A) (l : list A) (i : nat) :
  (i < length l)%nat -> l !! i = Some (nth i l d).
Proof.
  intros Hi. destruct (nth_lookup_or_length l i d) as [H|H]; [exact H|lia].
Qed.

Lemma StronglySorted_rev_flip {A : Type} (R : A -> A -> Prop) (l : list A) :
  StronglySorted R l -> StronglySorted (fun a b => R b a) (rev l).
Proof.
  induction 1 as [|a l Hs IH Ha]; simpl; [constructor|].
  apply StronglySorted_app_2; [|exact IH|repeat constructor].
  intros x y Hx Hy. apply list_elem_of_singleton in Hy as ->.
  rewrite Forall_forall in Ha. apply Ha.
  apply list_elem_of_In, in_rev, list_elem_of_In, Hx.
Qed.

Lemma StronglySorted_map {A B : Type} (R : B -> B -> Prop) (f : A -> B) (l : list A) :
  StronglySorted (fun a b => R (f a) (f b)) l -> StronglySorted R (map f l).
Proof.
  induction 1 as [|a l Hs IH Ha]; simpl; constructor; [exact IH|].
  apply Forall_map. exact Ha.
Qed.

Section RetrievalFacts.
Context {V : Vectorizer} {A : ArgSort}.

Lemma length_cos_sim (nb : notebook) (q : string) :
  length (cos_sim nb q) = length (tfidf_matrix nb).
Proof. unfold cos_sim. apply length_map. Qed.

Lemma argsort_length (v : list Q) : length (argsort v) = length v.
Proof. rewrite (Permutation_length (argsort_perm v)). apply length_seq. Qed.

Lemma top_doc_indices_length (v : list Q) (k : Z) :
  length (top_doc_indices v k) =
  if 0 <=? k then Nat.min (Z.to_nat k) (length v)
  else (length v - Z.to_nat (- k))%nat.
Proof.
  unfold top_doc_indices.
  now rewrite slice_to_length, length_rev, argsort_length.
Qed.

Lemma top_doc_indices_in_range (v : list Q) (k : Z) :
  Forall (fun i => (i < length v)%nat) (top_doc_indices v k).
Proof.
  unfold top_doc_indices.
  destruct (slice_to_prefix k (rev (argsort v))) as [rest Hrest].
  assert (Hall : Forall (fun i => (i < length v)%nat) (rev (argsort v))).
  { apply List.Forall_forall. intros i Hi. apply in_rev in Hi.
    apply (Permutation_in _ (argsort_perm v)) in Hi.
    apply in_seq in Hi. lia. }
  rewrite Hrest in Hall. now apply Forall_app in Hall.
Qed.

Lemma top_doc_indices_NoDup (v : list Q) (k : Z) :
  NoDup (top_doc_indices v k).
Proof.
  unfold top_doc_indices.
  destruct (slice_to_prefix k (rev (argsort v))) as [rest Hrest].
  assert (Hnd : NoDup (rev (argsort v))).
  { apply NoDup_ListNoDup, List.NoDup_rev.
    apply (Permutation_NoDup (Permutation_sym (argsort_perm v))).
    apply List.seq_NoDup. }
  rewrite Hrest in Hnd. now apply NoDup_app in Hnd.
Qed.

Lemma top_doc_indices_descending (v : list Q) (k : Z) :
  StronglySorted (fun i j => (nth j v 0 <= nth i v 0)%Q) (top_doc_indices v k).
Proof.
  unfold top_doc_indices.
  destruct (slice_to_prefix k (rev (argsort v))) as [rest Hrest].
  pose proof (StronglySorted_rev_flip _ _ (argsort_sorted v)) as Hs.
  rewrite Hrest in Hs. now apply StronglySorted_app_1_l in Hs.
Qed.

Lemma compute_results_ok (nb : notebook) (q : string) (k : Z) :
  consistent nb -> compute_results nb q k = Ok (ranking nb q k).
Proof.
  intros Hc. unfold compute_results, results_of, ranking. cbv zeta.
  apply comprehension_ok.
  eapply Forall_impl; [apply top_doc_indices_in_range|].
  intros i Hi. cbv beta in Hi. rewrite length_cos_sim, <- Hc in Hi.
  now rewrite (index_ok ""%string).
Qed.

Lemma retrieve_hit (nb : notebook) (q : string) (k : Z) (cached : ranked) :
  query_cache nb !! q = Some cached ->
  retrieve_with_cache q k nb = (Ok cached, nb).
Proof. intros H. unfold retrieve_with_cache. now rewrite H. Qed.

Lemma retrieve_miss (nb : notebook) (q : string) (k : Z) :
  consistent nb -> query_cache nb !! q = None ->
  retrieve_with_cache q k nb =
  (Ok (ranking nb q k),
   set_cache (<[q := ranking nb q k]> (query_cache nb)) (count_scorer nb)).
Proof.
  intros Hc H. unfold retrieve_with_cache.
  now rewrite H, compute_results_ok.
Qed.

Lemma ranking_length (nb : notebook) (q : string) (k : Z) :
  length (ranking nb q k) =
  if 0 <=? k then Nat.min (Z.to_nat k) (length (tfidf_matrix nb))
  else (length (tfidf_matrix nb) - Z.to_nat (- k))%nat.
Proof.
  unfold ranking. cbv zeta.
  now rewrite length_map, top_doc_indices_length, length_cos_sim.
Qed.

Lemma ranking_descending (nb : notebook) (q : string) (k : Z) :
  descending (ranking nb q k).
Proof.
  unfold descending, ranking. cbv zeta.
  apply StronglySorted_map. simpl. apply top_doc_indices_descending.
Qed.

End RetrievalFacts.

(** ** The cache: what a call reads and what it writes *)

Section CacheFacts.
Context {V : Vectorizer} {A : ArgSort}.

(** The three ways a call can end. *)
Lemma retrieve_cases (nb : notebook) (q : string) (k : Z) :
  (exists cached, query_cache nb !! q = Some cached /\
     retrieve_with_cache q k nb = (Ok cached, nb)) \/
  (exists e, query_cache nb !! q = None /\
     retrieve_with_cache q k nb = (Raise e, count_scorer nb)) \/
  (exists r, query_cache nb !! q = None /\
     retrieve_with_cache q k nb =
     (Ok r, set_cache (<[q := r]> (query_cache nb)) (count_scorer nb))).
Proof.
  unfold retrieve_with_cache.
  destruct (query_cache nb !! q) as [cached|]; [left; eauto|right].
  destruct (compute_results nb q k) as [r|e]; [right|left]; eauto.
Qed.

Lemma retrieve_preserves_lookup (nb : notebook) (q : string) (k : Z)
  (q' : string) (v : ranked) :
  query_cache nb !! q' = Some v ->
  query_cache (snd (retrieve_with_cache q k nb)) !! q' = Some v.
Proof.
  intros Hv.
  destruct (retrieve_cases nb q k) as [(c & Hc & ->)|[(e & Hn & ->)|(r & Hn & ->)]];
    simpl; try exact Hv.
  rewrite lookup_insert_ne; [exact Hv|]. intros ->. congruence.
Qed.

Lemma retrieve_other_key (nb : notebook) (q : string) (k : Z) (q' : string) :
  q' <> q ->
  query_cache (snd (retrieve_with_cache q k nb)) !! q' = query_cache nb !! q'.
Proof.
  intros Hne.
  destruct (retrieve_cases nb q k) as [(c & Hc & ->)|[(e & Hn & ->)|(r & Hn & ->)]];
    simpl; try reflexivity.
  now rewrite lookup_insert_ne.
Qed.

Lemma retrieve_consistent (nb : notebook) (q : string) (k : Z) :
  consistent nb -> consistent (snd (retrieve_with_cache q k nb)).
Proof.
  intros Hc.
  destruct (retrieve_cases nb q k) as [(c & _ & ->)|[(e & _ & ->)|(r & _ & ->)]];
    exact Hc.
Qed.

(** The build cell leaves one id per row, whatever the dataset. *)
Lemma build_tfidf_consistent (dataset : list (string * string)) (nb : notebook) :
  consistent (build_tfidf dataset nb).
Proof. unfold consistent. simpl. now rewrite !length_map. Qed.

(** With one id per row a call always returns, and what it returns is then
    what the cache holds under its query text. *)
Lemma retrieve_returns (nb : notebook) (q : string) (k : Z) :
  consistent nb ->
  exists r nb1, retrieve_with_cache q k nb = (Ok r, nb1) /\
    query_cache nb1 !! q = Some r.
Proof.
  intros Hc. destruct (query_cache nb !! q) as [cached|] eqn:E.
  - exists cached, nb. split; [now apply retrieve_hit|exact E].
  - eexists _, _. split; [now apply retrieve_miss|].
    simpl. apply lookup_insert_eq.
Qed.

(** A saved cache is served as it is, whatever index was loaded with it. *)
Lemma load_cell_serves_saved_cache (ids matrix : list string)
  (c : gmap string ranked) (nb : notebook) (q : string) (k : Z) (v : ranked) :
  c !! q = Some v ->
  retrieve_with_cache q k (load_cell ids matrix (Some c) nb)
  = (Ok v, load_cell ids matrix (Some c) nb).
Proof. intros Hv. now apply retrieve_hit. Qed.

Lemma run_calls_preserves_lookup (calls : list (string * Z)) (nb : notebook)
  (q' : string) (v : ranked) :
  query_cache nb !! q' = Some v ->
  query_cache (run_calls calls nb) !! q' = Some v.
Proof.
  revert nb. induction calls as [|[q k] calls IH]; intros nb Hv; [exact Hv|].
  apply IH. now apply retrieve_preserves_lookup.
Qed.

End CacheFacts.

(** ** The claims about the cache *)

Section CacheClaims.
Context {V : Vectorizer} {A : ArgSort}.

(** C9: a call that hits leaves the cache as it is; a call that misses (on a
    notebook with one id per matrix row, where it returns) adds exactly one
    entry, under the queried text; no call removes an entry or changes the
    value under a key that was there, and the number of entries never goes
    down. *)
Theorem C9_cache_frame (nb : notebook) (q : string) (k : Z) :
  (is_Some (query_cache nb !! q) ->
     snd (retrieve_with_cache q k nb) = nb) /\
  (query_cache nb !! q = None -> consistent nb ->
     exists r,
       fst (retrieve_with_cache q k nb) = Ok r /\
       query_cache (snd (retrieve_with_cache q k nb)) = <[q := r]> (query_cache nb) /\
       size (query_cache (snd (retrieve_with_cache q k nb))) = S (size (query_cache nb))) /\
  (forall q' v, query_cache nb !! q' = Some v ->
     query_cache (snd (retrieve_with_cache q k nb)) !! q' = Some v) /\
  (size (query_cache nb) <= size (query_cache (snd (retrieve_with_cache q k nb))))%nat.
Proof.
  repeat split.
  - intros [cached Hc]. now rewrite (retrieve_hit _ _ _ _ Hc).
  - intros Hn Hc. exists (ranking nb q k).
    rewrite (retrieve_miss _ _ _ Hc Hn). simpl.
    repeat split. now apply map_size_insert_None.
  - intros q' v. apply retrieve_preserves_lookup.
  - destruct (retrieve_cases nb q k) as [(c & _ & ->)|[(e & _ & ->)|(r & Hn & ->)]];
      simpl; try lia.
    rewrite map_size_insert_None by exact Hn. lia.
Qed.

(** C6: when a query is asked twice with the same k and only other calls of
    the function run in between, the second call returns the very list the
    first returned and leaves the notebook, the scorer's call count included,
    as it found it. *)
Theorem C6_repeat_served_from_cache (nb : notebook) (q : string) (k : Z)
  (between : list (string * Z)) :
  consistent nb ->
  exists r nb1,
    retrieve_with_cache q k nb = (Ok r, nb1) /\
    retrieve_with_cache q k (run_calls between nb1) = (Ok r, run_calls between nb1) /\
    scorer_calls (snd (retrieve_with_cache q k (run_calls between nb1)))
    = scorer_calls (run_calls between nb1).
Proof.
  intros Hc. destruct (retrieve_returns nb q k Hc) as (r & nb1 & Hcall & Hin).
  exists r, nb1. split; [exact Hcall|].
  pose proof (run_calls_preserves_lookup between nb1 q r Hin) as Hstill.
  rewrite (retrieve_hit _ _ _ _ Hstill). now split.
Qed.

(** C1, as the code has it: the cache key is the query text as passed, and
    nothing else.  A call stores or finds its list under that text; every
    later call with the same text gets that list whatever its top_k; entries
    under any other text are not touched. *)
Theorem C1_key_is_query_text (nb : notebook) (q : string) (k : Z) :
  consistent nb ->
  exists r nb1,
    retrieve_with_cache q k nb = (Ok r, nb1) /\
    query_cache nb1 !! q = Some r /\
    (forall k', retrieve_with_cache q k' nb1 = (Ok r, nb1)) /\
    (forall q', q' <> q -> query_cache nb1 !! q' = query_cache nb !! q').
Proof.
  intros Hc. destruct (retrieve_returns nb q k Hc) as (r & nb1 & Hcall & Hin).
  exists r, nb1. repeat split; try assumption.
  - intros k'. now apply retrieve_hit.
  - intros q' Hne. pose proof (retrieve_other_key nb q k q' Hne) as H.
    now rewrite Hcall in H.
Qed.

(** C5, as the code has it: rebuilding the index assigns the index names
    only.  The cache is the same dictionary afterwards, and a request for a
    key cached before the rebuild is answered with the old list, with no
    scoring against the new index; only the cell that assigns
    [query_cache = {}] empties the cache. *)
Theorem C5_rebuild_keeps_cache (nb : notebook) (dataset : list (string * string))
  (q : string) (k : Z) (cached : ranked) :
  query_cache nb !! q = Some cached ->
  query_cache (build_tfidf dataset nb) = query_cache nb /\
  retrieve_with_cache q k (build_tfidf dataset nb)
  = (Ok cached, build_tfidf dataset nb) /\
  query_cache (cache_cell nb) !! q = None.
Proof.
  intros Hin. split; [reflexivity|]. split.
  - now apply retrieve_hit.
  - apply lookup_empty.
Qed.

(** C4, as the code has it: no value of top_k is rejected.  On a notebook
    with one id per matrix row every call returns a list; computed for
    top_k = 0 the list is empty, computed for a negative top_k it holds all
    documents but the [-top_k] lowest ranked, and it is cached either way. *)
Theorem C4_nonpositive_k_returns (nb : notebook) (q : string) (k : Z) :
  consistent nb ->
  exists r nb1,
    retrieve_with_cache q k nb = (Ok r, nb1) /\
    query_cache nb1 !! q = Some r /\
    (query_cache nb !! q = None -> k = 0 -> r = []) /\
    (query_cache nb !! q = None -> k < 0 ->
       length r = (length (doc_ids nb) - Z.to_nat (- k))%nat).
Proof.
  intros Hc. destruct (retrieve_returns nb q k Hc) as (r & nb1 & Hcall & Hin).
  exists r, nb1. repeat split; try assumption.
  - intros Hn ->. rewrite (retrieve_miss _ _ _ Hc Hn) in Hcall.
    injection Hcall as <- _. reflexivity.
  - intros Hn Hk. rewrite (retrieve_miss _ _ _ Hc Hn) in Hcall.
    injection Hcall as <- _. rewrite ranking_length, Hc.
    destruct (0 <=? k) eqn:E; [lia|reflexivity].
Qed.

End CacheClaims.

(** ** The claims about the ranking *)

Section RankingClaims.
Context {V : Vectorizer} {A : ArgSort}.


Lemma ranking_doc_ids_NoDup (nb : notebook) (q : string) (k : Z) :
  consistent nb -> NoDup (doc_ids nb) -> NoDup (map fst (ranking nb q k)).
Proof.
  intros Hc Hnd. unfold ranking. cbv zeta. rewrite map_map. simpl.
  apply (NoDup_fmap_2_strong (fun i => nth i (doc_ids nb) ""%string));
    [|apply top_doc_indices_NoDup].
  intros i j Hi Hj Heq.
  pose proof (top_doc_indices_in_range (cos_sim nb q) k) as Hr.
  rewrite Forall_forall in Hr.
  pose proof (Hr _ Hi) as Hi'. pose proof (Hr _ Hj) as Hj'.
  rewrite length_cos_sim, <- Hc in Hi', Hj'.
  apply NoDup_ListNoDup in Hnd.
  now apply (proj1 (List.NoDup_nth (doc_ids nb) ""%string) Hnd).
Qed.

(** C10, for the calls that compute: a call with top_k >= 0 whose query
    text is not in the cache, on a notebook with one id per matrix row and
    pairwise distinct doc_ids, returns a list of length min(top_k, corpus
    size) in which no doc_id occurs twice. *)
Theorem C10_computed_length_distinct (nb : notebook) (q : string) (k : Z) :
  consistent nb -> NoDup (doc_ids nb) ->
  query_cache nb !! q = None -> 0 <= k ->
  exists r nb1,
    retrieve_with_cache q k nb = (Ok r, nb1) /\
    length r = Nat.min (Z.to_nat k) (length (doc_ids nb)) /\
    NoDup (map fst r).
Proof.
  intros Hc Hnd Hn Hk. eexists _, _.
  split; [now apply retrieve_miss|]. split.
  - rewrite ranking_length, Hc.
    destruct (0 <=? k) eqn:E; [reflexivity|lia].
  - now apply ranking_doc_ids_NoDup.
Qed.



Lemma cache_cell_descending (nb : notebook) : cache_descending (cache_cell nb).
Proof. apply map_Forall_empty. Qed.

Lemma build_tfidf_descending (dataset : list (string * string)) (nb : notebook) :
  cache_descending nb -> cache_descending (build_tfidf dataset nb).
Proof. intros H. exact H. Qed.

(** C3, as the code has it: on a notebook whose cache holds only lists in
    descending score order (the empty cache, and every cache the function
    has filled from it), every call returns a list ordered descending by
    score and leaves such a cache.  Nothing orders documents of equal score
    by doc_id. *)
Theorem C3_results_descending (nb : notebook) (q : string) (k : Z) :
  consistent nb -> cache_descending nb ->
  exists r nb1,
    retrieve_with_cache q k nb = (Ok r, nb1) /\
    descending r /\ cache_descending nb1.
Proof.
  intros Hc Hd. destruct (query_cache nb !! q) as [cached|] eqn:E.
  - exists cached, nb. split; [now apply retrieve_hit|].
    split; [|exact Hd]. exact (Hd _ _ E).
  - eexists _, _. split; [now apply retrieve_miss|].
    split; [apply ranking_descending|].
    unfold cache_descending. simpl.
    apply map_Forall_insert_2; [apply ranking_descending|exact Hd].
Qed.

End RankingClaims.

(** ** Order of the corpus *)

Lemma slice_to_map {A B : Type} (f : A -> B) (k : Z) (l : list A) :
  slice_to k (map f l) = map f (slice_to k l).
Proof.
  unfold slice_to. rewrite length_map.
  destruct (0 <=? k); apply firstn_map.
Qed.

Lemma scored_rows (g : string -> Q) (ds : list (string * string)) :
  map (fun i => (nth i (map fst ds) ""%string, nth i (map g (map snd ds)) 0%Q))
      (seq 0 (length ds))
  = map (fun row => (fst row, g (snd row))) ds.
Proof.
  induction ds as [|row ds IH]; [reflexivity|].
  simpl. f_equal. rewrite <- seq_shift, map_map. exact IH.
Qed.

Section CorpusOrder.
Context {V : Vectorizer} {A : ArgSort}.

(** The whole corpus in rank order: what [ranking] is a slice of. *)
Lemma ranking_slice (nb : notebook) (q : string) (k : Z) :
  ranking nb q k =
  slice_to k (map (fun i => (nth i (doc_ids nb) ""%string, nth i (cos_sim nb q) 0%Q))
                  (rev (argsort (cos_sim nb q)))).
Proof. unfold ranking, top_doc_indices. cbv zeta. now rewrite slice_to_map. Qed.

Lemma full_ranking_rows (ds : list (string * string)) (nb : notebook) (q : string) :
  Permutation
    (map (fun i => (nth i (map fst ds) ""%string,
                    nth i (cos_sim (build_tfidf ds nb) q) 0%Q))
         (rev (argsort (cos_sim (build_tfidf ds nb) q))))
    (map (fun row => (fst row, similarity (map snd ds) q (snd row))) ds).
Proof.
  unfold cos_sim. simpl.
  rewrite <- (scored_rows (similarity (map snd ds) q) ds).
  apply Permutation_map. rewrite <- Permutation_rev.
  rewrite argsort_perm. now rewrite !length_map.
Qed.

Lemma full_ranking_sorted (ids : list string) (v : list Q) :
  StronglySorted (fun a b => (snd b <= snd a)%Q)
    (map (fun i => (nth i ids ""%string, nth i v 0%Q)) (rev (argsort v))).
Proof.
  apply StronglySorted_map. simpl.
  apply (StronglySorted_rev_flip _ _ (argsort_sorted v)).
Qed.

Lemma slice_to_firstn {B : Type} (k : Z) (l : list B) :
  slice_to k l
  = firstn (if 0 <=? k then Z.to_nat k else (length l - Z.to_nat (- k))%nat) l.
Proof. unfold slice_to. now destruct (0 <=? k). Qed.

(** Two descending lists with the same entries begin alike, as far as no
    entry of the beginning shares its score with an entry elsewhere. *)
Lemma descending_prefix_unique (n : nat) (l1 l2 : ranked) :
  descending l1 -> descending l2 -> Permutation l1 l2 ->
  (forall p p' a b, (p < n)%nat -> l1 !! p = Some a -> l1 !! p' = Some b ->
                    (snd a == snd b)%Q -> p = p') ->
  firstn n l1 = firstn n l2.
Proof.
  revert l1 l2. induction n as [|n IH]; intros l1 l2 H1 H2 Hp Hu; [reflexivity|].
  destruct l1 as [|a l1].
  { apply Permutation_nil in Hp. now subst. }
  destruct l2 as [|b l2].
  { symmetry in Hp. apply Permutation_nil in Hp. discriminate. }
  apply StronglySorted_inv in H1 as [H1 Ha].
  apply StronglySorted_inv in H2 as [H2 Hb].
  assert (Hab : a = b).
  { assert (Hin : In a (b :: l2)) by (apply (Permutation_in _ Hp); now left).
    destruct Hin as [->|Hin]; [reflexivity|].
    assert (Hin' : In b (a :: l1))
      by (apply (Permutation_in _ (Permutation_sym Hp)); now left).
    destruct Hin' as [->|Hin']; [reflexivity|].
    rewrite List.Forall_forall in Ha, Hb.
    pose proof (Ha _ Hin') as Hle1. pose proof (Hb _ Hin) as Hle2.
    apply list_elem_of_In, list_elem_of_lookup in Hin' as [p' Hp'].
    assert (0 = S p')%nat; [|discriminate].
    apply (Hu 0%nat (S p') a b); [lia|reflexivity|exact Hp'|].
    now apply Qle_antisym. }
  subst b. simpl. f_equal. apply IH; try assumption.
  - now apply Permutation_cons_inv in Hp.
  - intros p p' x y Hlt Hx Hy Hxy.
    assert (S p = S p')%nat; [|lia].
    apply (Hu (S p) (S p') x y); [lia|exact Hx|exact Hy|exact Hxy].
Qed.

(** C7, where it holds: with a vectorizer whose fit does not depend on the
    order of the texts, and for a query and k such that no document the call
    returns has the same score as another document of the corpus, the index
    built from a corpus and the index built from any permutation of it give
    the same Ranked Result.  (Ties among documents that are not returned do
    not matter; a returned document that ties with another is ranked by its
    row in the matrix, that is, by its position in the corpus.) *)
Theorem C7_order_independent_without_ties (ds ds' : list (string * string))
  (nb : notebook) (q : string) (k : Z) :
  fit_order_independent V ->
  Permutation ds ds' ->
  query_cache nb !! q = None ->
  untied_top (cos_sim (build_tfidf ds nb) q)
             (top_doc_indices (cos_sim (build_tfidf ds nb) q) k) ->
  exists r,
    fst (retrieve_with_cache q k (build_tfidf ds nb)) = Ok r /\
    fst (retrieve_with_cache q k (build_tfidf ds' nb)) = Ok r.
Proof.
  intros Hfit Hperm Hn Hu.
  exists (ranking (build_tfidf ds nb) q k).
  rewrite !retrieve_miss by (apply build_tfidf_consistent || exact Hn). simpl.
  split; [reflexivity|]. f_equal.
  rewrite !ranking_slice, !slice_to_firstn. symmetry.
  set (g := fun row : string * string =>
              (fst row, similarity (map snd ds) q (snd row))).
  set (v := cos_sim (build_tfidf ds nb) q) in *.
  set (v' := cos_sim (build_tfidf ds' nb) q).
  assert (Hrows : Permutation
    (map (fun i => (nth i (map fst ds) ""%string, nth i v 0%Q)) (rev (argsort v)))
    (map g ds)) by apply full_ranking_rows.
  assert (Hrows' : Permutation
    (map (fun i => (nth i (map fst ds') ""%string, nth i v' 0%Q)) (rev (argsort v')))
    (map g ds)).
  { unfold v'. rewrite full_ranking_rows, Hperm. apply Permutation_refl'.
    apply map_ext. intros row. unfold g. f_equal. symmetry.
    apply Hfit. now apply Permutation_map. }
  assert (Hlen : length (rev (argsort v')) = length (rev (argsort v))).
  { rewrite !length_rev, !argsort_length. unfold v, v'.
    rewrite !length_cos_sim. simpl. rewrite !length_map.
    symmetry. now apply Permutation_length. }
  simpl doc_ids. rewrite !length_map, Hlen.
  set (n := if 0 <=? k then Z.to_nat k
            else (length (rev (argsort v)) - Z.to_nat (- k))%nat).
  apply descending_prefix_unique.
  - apply full_ranking_sorted.
  - apply full_ranking_sorted.
  - now rewrite Hrows, Hrows'.
  - intros p p' a b Hlt Ha Hb Hab.
    apply list_lookup_fmap_Some in Ha as (i & -> & Hi).
    apply list_lookup_fmap_Some in Hb as (j & -> & Hj).
    simpl in Hab.
    assert (Hrange : forall m x, rev (argsort v) !! m = Some x ->
                                 v !! x = Some (nth x v 0%Q)).
    { intros m x Hx. apply lookup_nth.
      apply list_elem_of_lookup_2, list_elem_of_In in Hx.
      apply (proj2 (in_rev _ _)) in Hx.
      apply (Permutation_in _ (argsort_perm v)), in_seq in Hx. lia. }
    assert (Hij : i = j).
    { apply (Hu i j (nth i v 0%Q) (nth j v 0%Q));
        [|now apply (Hrange p)|now apply (Hrange p')|exact Hab].
      unfold top_doc_indices. rewrite slice_to_firstn. fold n.
      apply list_elem_of_lookup. exists p. rewrite lookup_take_lt by exact Hlt.
      exact Hi. }
    subst j.
    assert (Hnd : NoDup (rev (argsort v))).
    { apply NoDup_ListNoDup, List.NoDup_rev.
      apply (Permutation_NoDup (Permutation_sym (argsort_perm v))).
      apply List.seq_NoDup. }
    exact (NoDup_lookup _ _ _ _ Hnd Hi Hj).
Qed.

(** Whatever the vectorizer and whatever argsort does with ties, two
    documents with the same text swap places in the result when they swap
    places in the corpus. *)
Lemma tied_rows_follow_position (text q : string) :
  exists p s,
    (p < 2)%nat /\
    fst (retrieve_with_cache q 1
           (build_tfidf [("d1", text); ("d2", text)]%string blank))
    = Ok [(nth p ["d1"; "d2"]%string ""%string, s)] /\
    fst (retrieve_with_cache q 1
           (build_tfidf [("d2", text); ("d1", text)]%string blank))
    = Ok [(nth p ["d2"; "d1"]%string ""%string, s)].
Proof.
  set (v := [similarity [text; text] q text; similarity [text; text] q text]).
  pose proof (top_doc_indices_length v 1) as Hlen.
  pose proof (top_doc_indices_in_range v 1) as Hr.
  destruct (top_doc_indices v 1) as [|p [|? ?]] eqn:E; simpl in Hlen; try lia.
  apply Forall_cons in Hr as [Hp _]. simpl in Hp.
  exists p, (nth p v 0%Q). split; [exact Hp|].
  split; (rewrite retrieve_miss; [|reflexivity|reflexivity]); simpl;
    unfold ranking, cos_sim; simpl; fold v; rewrite E; reflexivity.
Qed.

(** Nor does the order of tied documents look at doc_id: whatever argsort
    does with two equal scores, one of the two ways of naming two documents
    with the same text puts d2 before d1. *)
Lemma tie_order_ignores_doc_id (text q : string) :
  exists ids s,
    Permutation ids ["d1"; "d2"]%string /\
    fst (retrieve_with_cache q 2
           (build_tfidf (combine ids [text; text]) blank))
    = Ok [("d2"%string, s); ("d1"%string, s)] /\
    ties_ascending [("d2"%string, s); ("d1"%string, s)] = false.
Proof.
  set (v := [similarity [text; text] q text; similarity [text; text] q text]).
  set (s := similarity [text; text] q text).
  assert (Hties : ties_ascending [("d2"%string, s); ("d1"%string, s)] = false).
  { simpl. rewrite (proj2 (Qeq_bool_iff s s) (Qeq_refl s)). reflexivity. }
  pose proof (top_doc_indices_length v 2) as Hlen.
  pose proof (top_doc_indices_in_range v 2) as Hr.
  pose proof (top_doc_indices_NoDup v 2) as Hnd.
  destruct (top_doc_indices v 2) as [|a [|b [|? ?]]] eqn:E; simpl in Hlen; try lia.
  apply Forall_cons in Hr as [Ha Hr]. apply Forall_cons in Hr as [Hb _].
  simpl in Ha, Hb.
  apply NoDup_cons in Hnd as [Hab _]. rewrite list_elem_of_singleton in Hab.
  assert (Hcase : (a = 0 /\ b = 1)%nat \/ (a = 1 /\ b = 0)%nat) by lia.
  destruct Hcase as [[-> ->]|[-> ->]].
  - exists ["d2"; "d1"]%string, s. split; [apply perm_swap|]. split; [|exact Hties].
    rewrite retrieve_miss; [|reflexivity|reflexivity]. simpl.
    unfold ranking, cos_sim. simpl. fold v. rewrite E. reflexivity.
  - exists ["d1"; "d2"]%string, s. split; [reflexivity|]. split; [|exact Hties].
    rewrite retrieve_miss; [|reflexivity|reflexivity]. simpl.
    unfold ranking, cos_sim. simpl. fold v. rewrite E. reflexivity.
Qed.

End CorpusOrder.

(** ** Interleaved callers of one key *)

Lemma past_count_insert (pool : list caller) (i : nat) (c c' : caller) :
  pool !! i = Some c ->
  (past_count (<[i := c']> pool) + past_compute c
   = past_count pool + past_compute c')%nat.
Proof.
  unfold past_count. revert i.
  induction pool as [|x pool IH]; intros [|i] Hi; simpl in *; try discriminate.
  - injection Hi as ->. lia.
  - specialize (IH i Hi). lia.
Qed.

Lemma past_count_lookup (pool : list caller) (i : nat) (c : caller) :
  pool !! i = Some c -> (past_compute c <= past_count pool)%nat.
Proof.
  unfold past_count. revert i.
  induction pool as [|x pool IH]; intros [|i] Hi; simpl in *; try discriminate.
  - injection Hi as ->. lia.
  - specialize (IH i Hi). lia.
Qed.

Lemma past_count_le_length (pool : list caller) :
  (past_count pool <= length pool)%nat.
Proof.
  unfold past_count. induction pool as [|c pool IH]; simpl; [lia|].
  destruct c; simpl; lia.
Qed.

Lemma past_count_all_returned (pool : list caller) :
  Forall (fun c => returned c = true) pool -> past_count pool = length pool.
Proof.
  unfold past_count. induction 1 as [|c pool Hc _ IH]; simpl; [reflexivity|].
  destruct c; try discriminate. simpl. lia.
Qed.

Section Interleaving.
Context {V : Vectorizer} {A : ArgSort}.

(** A caller that runs alone does what the function does. *)
Lemma caller_alone (q : string) (k : Z) (nb : notebook) :
  run_schedule q [0; 0; 0]%nat (callers [k], nb)
  = ([(k, Returned (fst (retrieve_with_cache q k nb)))],
     snd (retrieve_with_cache q k nb)).
Proof.
  unfold run_schedule, pool_step, retrieve_with_cache. simpl.
  destruct (query_cache nb !! q) as [cached|] eqn:E; simpl; [reflexivity|].
  destruct (compute_results nb q k) as [r|e]; reflexivity.
Qed.

Lemma run_calls_same_text (q : string) (calls : list (string * Z))
  (nb : notebook) (r : ranked) :
  Forall (fun c => fst c = q) calls ->
  query_cache nb !! q = Some r -> run_calls calls nb = nb.
Proof.
  intros Hall Hin. induction Hall as [|[q' k] calls Hq _ IH]; [reflexivity|].
  simpl in Hq. subst q'. unfold run_calls in *. simpl.
  now rewrite (retrieve_hit _ _ _ _ Hin).
Qed.

Variables (nb0 : notebook) (q : string) (ks : list Z).
Hypothesis nb0_consistent : consistent nb0.
Hypothesis q_uncached : query_cache nb0 !! q = None.

(** What holds of the pool and the notebook at every point of every
    schedule. *)
Record pool_inv (st : list (Z * caller) * notebook) : Prop := {
  inv_doc_ids : doc_ids (snd st) = doc_ids nb0;
  inv_fitted : tfidf_matrix (snd st) = tfidf_matrix nb0;
  inv_top_ks : map fst (fst st) = ks;
  inv_cache :
    query_cache (snd st) = query_cache nb0 \/
    exists k, k ∈ ks /\
      query_cache (snd st) = <[q := ranking nb0 q k]> (query_cache nb0);
  inv_callers :
    Forall (fun kc => snd kc = AtTest \/ snd kc = AtCompute \/
                      snd kc = AtStore (ranking nb0 q (fst kc)) \/
                      exists k, k ∈ ks /\
                        snd kc = Returned (Ok (ranking nb0 q k))) (fst st);
  inv_upper :
    (scorer_calls (snd st)
     <= scorer_calls nb0 + past_count (map snd (fst st)))%nat;
  inv_mono : (scorer_calls nb0 <= scorer_calls (snd st))%nat;
  inv_lower_past :
    (0 < past_count (map snd (fst st)) ->
     scorer_calls nb0 < scorer_calls (snd st))%nat;
  inv_lower_cache :
    is_Some (query_cache (snd st) !! q) ->
    (scorer_calls nb0 < scorer_calls (snd st))%nat;
  inv_returned :
    query_cache (snd st) = query_cache nb0 ->
    Forall (fun kc => returned (snd kc) = false) (fst st)
}.

Lemma compute_results_same_index (nb : notebook) (k : Z) :
  doc_ids nb = doc_ids nb0 -> tfidf_matrix nb = tfidf_matrix nb0 ->
  compute_results nb q k = Ok (ranking nb0 q k).
Proof.
  intros Hi Hf. rewrite <- (compute_results_ok nb0 q k nb0_consistent).
  unfold compute_results, cos_sim. now rewrite Hi, Hf.
Qed.

Lemma pool_inv_start : pool_inv (callers ks, nb0).
Proof.
  assert (Hz : past_count (map snd (callers ks)) = 0%nat).
  { unfold past_count, callers. induction ks as [|k l IH]; simpl;
      [reflexivity|exact IH]. }
  split; simpl; try reflexivity.
  - unfold callers. rewrite map_map. simpl. apply map_id.
  - now left.
  - unfold callers. apply Forall_fmap, Forall_true. intros k. now left.
  - lia.
  - rewrite Hz. lia.
  - rewrite q_uncached. intros [? ?]. discriminate.
  - intros _. unfold callers. apply Forall_fmap, Forall_true. reflexivity.
Qed.

Lemma pool_insert_fst (pool : list (Z * caller)) (i : nat) (k : Z) (c c' : caller) :
  pool !! i = Some (k, c) -> map fst (<[i := (k, c')]> pool) = map fst pool.
Proof.
  intros Hi. change (map fst (<[i := (k, c')]> pool))
    with (fst <$> <[i := (k, c')]> pool).
  rewrite list_fmap_insert. simpl. apply list_insert_id.
  now rewrite list_lookup_fmap, Hi.
Qed.

Lemma pool_insert_snd (pool : list (Z * caller)) (i : nat) (k : Z) (c' : caller) :
  map snd (<[i := (k, c')]> pool) = <[i := c']> (map snd pool).
Proof.
  change (map snd (<[i := (k, c')]> pool)) with (snd <$> <[i := (k, c')]> pool).
  now rewrite list_fmap_insert.
Qed.

Lemma pool_inv_step (i : nat) (st : list (Z * caller) * notebook) :
  pool_inv st -> pool_inv (pool_step q i st).
Proof.
  intros [Hids Hfit Hks Hcache Hcallers Hup Hmono Hlow Hlowc Hret].
  destruct st as [pool nb]. unfold pool_step. simpl in *.
  destruct (pool !! i) as [[k c]|] eqn:Ei; [|now split].
  pose proof (Forall_lookup_1 _ _ _ _ Hcallers Ei) as Hc. simpl in Hc.
  assert (Hk : k ∈ ks).
  { rewrite <- Hks. apply list_elem_of_fmap. exists (k, c).
    split; [reflexivity|]. eapply list_elem_of_lookup_2, Ei. }
  assert (Esnd : map snd pool !! i = Some c).
  { change (map snd pool) with (snd <$> pool).
    now rewrite list_lookup_fmap, Ei. }
  destruct Hc as [-> | [-> | [-> | (k' & Hk' & ->)]]]; simpl.
  - (* the membership test *)
    destruct Hcache as [Hc0|(k' & Hk' & Hc1)].
    + rewrite Hc0, q_uncached.
      pose proof (past_count_insert _ i AtTest AtCompute Esnd) as Hpc.
      simpl in Hpc.
      split; simpl; rewrite ?pool_insert_snd, ?(pool_insert_fst _ _ _ _ _ Ei);
        try assumption.
      * now left.
      * apply Forall_insert; [assumption|]. right. now left.
      * lia.
      * intros Hp. apply Hlow. lia.
      * intros _. apply Forall_insert; [now apply Hret|reflexivity].
    + assert (Hin : query_cache nb !! q = Some (ranking nb0 q k')).
      { rewrite Hc1. apply lookup_insert_eq. }
      rewrite Hin.
      pose proof (past_count_insert _ i AtTest
                    (Returned (Ok (ranking nb0 q k'))) Esnd) as Hpc.
      simpl in Hpc.
      assert (Hpos : (scorer_calls nb0 < scorer_calls nb)%nat)
        by (apply Hlowc; rewrite Hin; eauto).
      split; simpl; rewrite ?pool_insert_snd, ?(pool_insert_fst _ _ _ _ _ Ei);
        try assumption.
      * right. eauto.
      * apply Forall_insert; [assumption|]. simpl. right; right; right. eauto.
      * lia.
      * intros _. exact Hpos.
      * intros Hc0. rewrite Hc0, q_uncached in Hin. discriminate.
  - (* the computation *)
    rewrite (compute_results_same_index nb k Hids Hfit).
    pose proof (past_count_insert _ i AtCompute
                  (AtStore (ranking nb0 q k)) Esnd) as Hpc.
    simpl in Hpc.
    split; simpl; rewrite ?pool_insert_snd, ?(pool_insert_fst _ _ _ _ _ Ei);
      try assumption.
    + apply Forall_insert; [assumption|]. simpl. now right; right; left.
    + lia.
    + lia.
    + intros _. lia.
    + intros _. lia.
    + intros Hc0. apply Forall_insert; [now apply Hret|reflexivity].
  - (* the store *)
    pose proof (past_count_insert _ i (AtStore (ranking nb0 q k))
                  (Returned (Ok (ranking nb0 q k))) Esnd) as Hpc.
    simpl in Hpc.
    pose proof (past_count_lookup _ i _ Esnd) as Hone. simpl in Hone.
    assert (Hpos : (scorer_calls nb0 < scorer_calls nb)%nat) by (apply Hlow; lia).
    split; simpl; rewrite ?pool_insert_snd, ?(pool_insert_fst _ _ _ _ _ Ei);
      try assumption.
    + right. exists k. split; [exact Hk|].
      destruct Hcache as [-> | (k' & _ & ->)];
        [reflexivity|apply insert_insert_eq].
    + apply Forall_insert; [assumption|]. simpl. right; right; right. eauto.
    + lia.
    + intros _. exact Hpos.
    + intros _. exact Hpos.
    + intros Hc0.
      assert (Hq : (<[q := ranking nb0 q k]> (query_cache nb)) !! q
                   = Some (ranking nb0 q k)) by apply lookup_insert_eq.
      rewrite Hc0, q_uncached in Hq. discriminate.
  - (* returned already *)
    rewrite list_insert_id by exact Ei. now split.
Qed.

Lemma pool_inv_run (schedule : list nat) (st : list (Z * caller) * notebook) :
  pool_inv st -> pool_inv (run_schedule q schedule st).
Proof.
  revert st. induction schedule as [|i schedule IH]; intros st Hst; [exact Hst|].
  apply IH, pool_inv_step, Hst.
Qed.

(** C8, as the code has it: the function takes no lock and coalesces
    nothing, and its cache key is the query text alone.  When callers, each
    with its own top_k, request the same uncached text and their statements
    interleave, then once all have returned: the scorer has been invoked at
    least once and at most once per caller, and exactly once when the calls
    run one after the other; every caller has the list computed for the
    top_k of one of the callers; the cache holds one such list under the
    text, as the one entry added.  When all callers pass the same top_k they
    all have the same list, the one the cache holds. *)
Theorem C8_interleaved_callers (schedule : list nat) :
  (0 < length ks)%nat ->
  Forall (fun kc => returned (snd kc) = true)
         (fst (run_schedule q schedule (callers ks, nb0))) ->
  map fst (fst (run_schedule q schedule (callers ks, nb0))) = ks /\
  Forall (fun kc => exists k, k ∈ ks /\
                      snd kc = Returned (Ok (ranking nb0 q k)))
         (fst (run_schedule q schedule (callers ks, nb0))) /\
  (exists k, k ∈ ks /\
     query_cache (snd (run_schedule q schedule (callers ks, nb0)))
     = <[q := ranking nb0 q k]> (query_cache nb0)) /\
  (scorer_calls nb0
   < scorer_calls (snd (run_schedule q schedule (callers ks, nb0)))
   <= scorer_calls nb0 + length ks)%nat /\
  scorer_calls (run_calls (map (fun k => (q, k)) ks) nb0) = S (scorer_calls nb0) /\
  (forall k, Forall (fun k' => k' = k) ks ->
     Forall (fun kc => snd kc = Returned (Ok (ranking nb0 q k)))
            (fst (run_schedule q schedule (callers ks, nb0))) /\
     query_cache (snd (run_schedule q schedule (callers ks, nb0)))
     = <[q := ranking nb0 q k]> (query_cache nb0)).
Proof.
  intros Hn Hall.
  pose proof (pool_inv_run schedule _ pool_inv_start)
    as [_ _ Hks Hcache Hcallers Hup _ Hlow _ Hret].
  set (st := run_schedule q schedule (callers ks, nb0)) in *.
  assert (Hlen : length (fst st) = length ks).
  { rewrite <- Hks. now rewrite length_map. }
  assert (Hpast : past_count (map snd (fst st)) = length ks).
  { rewrite <- Hlen, <- (length_map snd). apply past_count_all_returned.
    apply Forall_fmap. exact Hall. }
  assert (Hret_all : Forall (fun kc => exists k, k ∈ ks /\
                              snd kc = Returned (Ok (ranking nb0 q k))) (fst st)).
  { rewrite Forall_forall in Hcallers, Hall. apply Forall_forall.
    intros kc Hkc. specialize (Hall kc Hkc).
    destruct (Hcallers kc Hkc) as [H | [H | [H | H]]];
      try (rewrite H in Hall; discriminate). exact H. }
  assert (Hstored : exists k, k ∈ ks /\
            query_cache (snd st) = <[q := ranking nb0 q k]> (query_cache nb0)).
  { destruct Hcache as [Hc0|Hc1]; [|exact Hc1].
    specialize (Hret Hc0). destruct (fst st) as [|kc pool]; simpl in Hlen; [lia|].
    apply Forall_cons in Hret as [Hr _]. apply Forall_cons in Hall as [Ha _].
    congruence. }
  split; [exact Hks|]. split; [exact Hret_all|]. split; [exact Hstored|].
  split; [split; [apply Hlow|]; lia|]. split.
  - destruct ks as [|k l]; [simpl in Hn; lia|]. simpl. unfold run_calls. simpl.
    rewrite (retrieve_miss _ _ _ nb0_consistent q_uncached). simpl.
    fold (run_calls (map (fun k => (q, k)) l)
            (set_cache (<[q := ranking nb0 q k]> (query_cache nb0))
               (count_scorer nb0))).
    rewrite (run_calls_same_text q _ _ (ranking nb0 q k)); [reflexivity| |].
    + apply Forall_fmap, Forall_true. reflexivity.
    + simpl. apply lookup_insert_eq.
  - intros k Hsame. rewrite Forall_forall in Hsame. split.
    + eapply Forall_impl; [exact Hret_all|].
      intros kc (k' & Hk' & ->). now rewrite (Hsame _ Hk').
    + destruct Hstored as (k' & Hk' & ->). now rewrite (Hsame _ Hk').
Qed.

End Interleaving.

(** ** More about the ranking a call computes *)

Lemma comprehension_raise {A B : Type} (f : A -> outcome B) (l : list A) :
  Exists (fun a => exists e, f a = Raise e) l ->
  exists e, comprehension f l = Raise e.
Proof.
  induction 1 as [a l [e Ha]|a l _ [e IH]]; simpl.
  - exists e. now rewrite Ha.
  - destruct (f a) as [b|e']; [|now exists e'].
    exists e. now rewrite IH.
Qed.

Lemma comprehension_ok_inv {A B : Type} (f : A -> outcome B) (l : list A)
  (bs : list B) :
  comprehension f l = Ok bs -> Forall (fun a => exists b, f a = Ok b) l.
Proof.
  revert bs. induction l as [|a l IH]; intros bs H; [constructor|].
  simpl in H. destruct (f a) as [b|e] eqn:Ea; [|discriminate].
  destruct (comprehension f l) as [bs'|e] eqn:El; [|discriminate].
  constructor; [now exists b|]. now apply (IH bs').
Qed.

Lemma combine_rows {A B : Type} (d : A) (e : B) (l : list A) (v : list B) :
  length l = length v ->
  map (fun i => (nth i l d, nth i v e)) (seq 0 (length l)) = combine l v.
Proof.
  revert v. induction l as [|a l IH]; intros [|b v] H; simpl in *;
    try discriminate; [reflexivity|].
  f_equal. rewrite <- seq_shift, map_map. apply IH. lia.
Qed.

Lemma slice_to_all {A : Type} (k : Z) (l : list A) :
  Z.of_nat (length l) <= k -> slice_to k l = l.
Proof.
  intros H. unfold slice_to. destruct (0 <=? k) eqn:E; [|lia].
  apply firstn_all2. lia.
Qed.

Lemma slice_to_mono {A : Type} (k1 k2 : Z) (l : list A) :
  0 <= k1 <= k2 \/ k1 <= k2 < 0 ->
  exists rest, slice_to k2 l = slice_to k1 l ++ rest.
Proof.
  intros H. unfold slice_to.
  assert (Hfirst : forall n1 n2, (n1 <= n2)%nat ->
            exists rest, firstn n2 l = firstn n1 l ++ rest).
  { intros n1 n2 Hn. exists (skipn n1 (firstn n2 l)).
    rewrite <- (firstn_skipn n1 (firstn n2 l)) at 1.
    f_equal. rewrite firstn_firstn. f_equal. lia. }
  destruct H as [H|H].
  - destruct (0 <=? k1) eqn:E1; [|lia]. destruct (0 <=? k2) eqn:E2; [|lia].
    apply Hfirst. lia.
  - destruct (0 <=? k1) eqn:E1; [lia|]. destruct (0 <=? k2) eqn:E2; [lia|].
    apply Hfirst. lia.
Qed.

Section MoreRanking.
Context {V : Vectorizer} {A : ArgSort}.

Lemma results_of_raise (ids : list string) (scores : list Q) (top : list nat) :
  Exists (fun i => (length ids <= i)%nat) top ->
  results_of ids scores top = Raise IndexError.
Proof.
  intros H. unfold results_of.
  destruct (comprehension_raise
              (fun i => match index ids i with
                        | Ok d => Ok (d, nth i scores 0%Q)
                        | Raise e => Raise e
                        end) top) as [[] Hr]; [|exact Hr].
  eapply Exists_impl; [exact H|]. intros i Hi. cbv beta in Hi |- *.
  exists IndexError. unfold index.
  destruct (nth_error ids i) eqn:E; [|reflexivity].
  assert (Hlt : (i < length ids)%nat) by (apply nth_error_Some; congruence).
  lia.
Qed.

(** X1: a call that misses raises [IndexError] exactly when one of the
    indices it ranks lies beyond the end of [doc_ids]; the exception leaves
    the cache as it was although the scorer has run, so the same call raises
    again and scores again. *)
Theorem retrieve_index_error (nb : notebook) (q : string) (k : Z) :
  query_cache nb !! q = None ->
  (Exists (fun i => (length (doc_ids nb) <= i)%nat)
          (top_doc_indices (cos_sim nb q) k)
   <-> fst (retrieve_with_cache q k nb) = Raise IndexError) /\
  (fst (retrieve_with_cache q k nb) = Raise IndexError ->
     snd (retrieve_with_cache q k nb) = count_scorer nb /\
     query_cache (snd (retrieve_with_cache q k nb)) = query_cache nb /\
     retrieve_with_cache q k (snd (retrieve_with_cache q k nb))
     = (Raise IndexError, count_scorer (count_scorer nb))).
Proof.
  intros Hn.
  assert (Hsame : compute_results (count_scorer nb) q k = compute_results nb q k)
    by reflexivity.
  destruct (compute_results nb q k) as [r|[]] eqn:E.
  - assert (Hcall : fst (retrieve_with_cache q k nb) = Ok r).
    { unfold retrieve_with_cache. now rewrite Hn, E. }
    rewrite Hcall. split; [|discriminate].
    split; [|discriminate]. intros Hex.
    unfold compute_results in E. cbv zeta in E.
    rewrite (results_of_raise _ _ _ Hex) in E. discriminate.
  - assert (Hcall : retrieve_with_cache q k nb
                    = (Raise IndexError, count_scorer nb)).
    { unfold retrieve_with_cache. now rewrite Hn, E. }
    assert (Hagain : retrieve_with_cache q k (count_scorer nb)
                     = (Raise IndexError, count_scorer (count_scorer nb))).
    { unfold retrieve_with_cache.
      change (query_cache (count_scorer nb)) with (query_cache nb).
      now rewrite Hn, Hsame. }
    rewrite Hcall. simpl. split.
    + split; [reflexivity|]. intros _.
      destruct (decide (Exists (fun i => (length (doc_ids nb) <= i)%nat)
                          (top_doc_indices (cos_sim nb q) k))) as [Hex|Hnex];
        [exact Hex|].
      exfalso. apply not_Exists_Forall in Hnex; [|intros i; apply _].
      unfold compute_results, results_of in E. cbv zeta in E.
      rewrite (comprehension_ok _
                 (fun i => (nth i (doc_ids nb) ""%string,
                            nth i (cos_sim nb q) 0%Q))) in E; [discriminate|].
      eapply Forall_impl; [exact Hnex|]. intros i Hi. simpl in Hi.
      rewrite (index_ok ""%string); [reflexivity|lia].
    + intros _. split; [reflexivity|]. split; [reflexivity|]. exact Hagain.
Qed.

(** X2: the documents a computing call returns are the best ones: every row
    of the corpus is either in the result, with its id and score, or scores
    no higher than any entry of the result. *)
Theorem retrieve_top_k_optimal (nb : notebook) (q : string) (k : Z) :
  consistent nb -> query_cache nb !! q = None ->
  exists r nb1,
    retrieve_with_cache q k nb = (Ok r, nb1) /\
    forall i d s,
      doc_ids nb !! i = Some d -> cos_sim nb q !! i = Some s ->
      (d, s) ∈ r \/ Forall (fun e => (s <= snd e)%Q) r.
Proof.
  intros Hc Hn. eexists _, _. split; [now apply retrieve_miss|].
  intros i d s Hd Hs. unfold ranking. cbv zeta.
  set (v := cos_sim nb q) in *.
  destruct (slice_to_prefix k (rev (argsort v))) as [rest Hrest].
  fold (top_doc_indices v k) in Hrest.
  assert (Hi : i ∈ top_doc_indices v k ++ rest).
  { rewrite <- Hrest. apply list_elem_of_In. apply (proj1 (in_rev _ _)).
    apply (Permutation_in _ (Permutation_sym (argsort_perm v))).
    apply in_seq. apply lookup_lt_Some in Hs. lia. }
  pose proof (StronglySorted_rev_flip _ _ (argsort_sorted v)) as Hsorted.
  rewrite Hrest in Hsorted.
  apply elem_of_app in Hi as [Htop|Hrst].
  - left. apply list_elem_of_fmap. exists i. split; [|exact Htop].
    now rewrite (nth_lookup_Some _ _ _ _ Hd), (nth_lookup_Some _ _ _ _ Hs).
  - right. apply Forall_fmap, Forall_forall. intros j Hj. simpl.
    pose proof (StronglySorted_app_1_elem_of _ _ _ _ _ Hsorted Hj Hrst) as Hle.
    simpl in Hle. now rewrite (nth_lookup_Some _ _ _ _ Hs) in Hle.
Qed.

(** X3: asking for fewer documents gives a prefix of asking for more: for
    two values of top_k of the same sign, the list computed for the smaller
    is the beginning of the list computed for the larger. *)
Theorem retrieve_prefix_in_top_k (nb : notebook) (q : string) (k1 k2 : Z) :
  consistent nb -> query_cache nb !! q = None ->
  0 <= k1 <= k2 \/ k1 <= k2 < 0 ->
  exists r1 rest,
    fst (retrieve_with_cache q k1 nb) = Ok r1 /\
    fst (retrieve_with_cache q k2 nb) = Ok (r1 ++ rest).
Proof.
  intros Hc Hn Hk. rewrite !retrieve_miss by assumption. simpl.
  rewrite !ranking_slice.
  destruct (slice_to_mono k1 k2
              (map (fun i => (nth i (doc_ids nb) ""%string,
                              nth i (cos_sim nb q) 0%Q))
                   (rev (argsort (cos_sim nb q)))) Hk) as [rest Hrest].
  eexists _, rest. split; [reflexivity|]. now rewrite Hrest.
Qed.

(** X4: with top_k at least the size of the corpus, a computing call
    returns every document exactly once: the result is a permutation of the
    rows, each id with its score. *)
Theorem retrieve_all_documents (nb : notebook) (q : string) (k : Z) :
  consistent nb -> query_cache nb !! q = None ->
  Z.of_nat (length (doc_ids nb)) <= k ->
  exists r nb1,
    retrieve_with_cache q k nb = (Ok r, nb1) /\
    Permutation r (combine (doc_ids nb) (cos_sim nb q)).
Proof.
  intros Hc Hn Hk. eexists _, _. split; [now apply retrieve_miss|].
  rewrite ranking_slice, slice_to_all.
  - rewrite <- (combine_rows ""%string 0%Q)
      by (now rewrite length_cos_sim).
    apply Permutation_map. rewrite <- Permutation_rev, argsort_perm.
    now rewrite length_cos_sim, Hc.
  - now rewrite length_map, length_rev, argsort_length, length_cos_sim, <- Hc.
Qed.

End MoreRanking.

(** ** Sequences of calls, and the cells around the function *)

Lemma print_ranking_ok (ids : list string) (scores : list Q) (rank : nat)
  (top : list nat) :
  Forall (fun i => (i < length ids)%nat) top ->
  print_ranking ids scores rank top
  = (zip_with (fun n e => RankLine n (fst e) (snd e))
       (seq (S rank) (length top))
       (map (fun i => (nth i ids ""%string, nth i scores 0%Q)) top),
     Ok tt).
Proof.
  intros H. revert rank. induction H as [|i top Hi _ IH]; intros rank;
    [reflexivity|].
  simpl. rewrite (index_ok ""%string) by exact Hi. now rewrite IH.
Qed.

Section CallsAndCells.
Context {V : Vectorizer} {A : ArgSort}.

Lemma retrieve_count_step (nb : notebook) (q : string) (k : Z) :
  consistent nb ->
  (scorer_calls (snd (retrieve_with_cache q k nb)) + size (query_cache nb)
   = scorer_calls nb + size (query_cache (snd (retrieve_with_cache q k nb))))%nat /\
  dom (query_cache (snd (retrieve_with_cache q k nb)))
  = dom (query_cache nb) ∪ {[q]}.
Proof.
  intros Hc. destruct (query_cache nb !! q) as [cached|] eqn:E.
  - rewrite (retrieve_hit _ _ _ _ E). simpl. split; [lia|].
    assert (Hq : q ∈ dom (query_cache nb)) by (apply elem_of_dom; eauto).
    symmetry. rewrite union_comm_L.
    apply subseteq_union_1_L. now apply singleton_subseteq_l.
  - rewrite (retrieve_miss _ _ _ Hc E). simpl. split.
    + rewrite map_size_insert_None by exact E. lia.
    + rewrite dom_insert_L. apply union_comm_L.
Qed.

(** X5: over any sequence of calls on a notebook with one id per matrix
    row, the scorer runs exactly once for every entry the cache gains, and
    the cache ends with the keys it had and the query texts that were asked:
    one scoring per distinct new query text, whatever the top_k values and
    however often a text is repeated. *)
Theorem run_calls_scorer_count (calls : list (string * Z)) (nb : notebook) :
  consistent nb ->
  (scorer_calls (run_calls calls nb) + size (query_cache nb)
   = scorer_calls nb + size (query_cache (run_calls calls nb)))%nat /\
  dom (query_cache (run_calls calls nb))
  = dom (query_cache nb) ∪ list_to_set (map fst calls).
Proof.
  revert nb. induction calls as [|[q k] calls IH]; intros nb Hc.
  - simpl. split; [lia|]. now rewrite union_empty_r_L.
  - change (run_calls ((q, k) :: calls) nb)
      with (run_calls calls (snd (retrieve_with_cache q k nb))).
    destruct (retrieve_count_step nb q k Hc) as [Hn Hd].
    destruct (IH _ (retrieve_consistent nb q k Hc)) as [Hn' Hd'].
    split; [lia|]. rewrite Hd', Hd. simpl.
    now rewrite union_assoc_L.
Qed.

(** X6: on a notebook with one id per matrix row, the single-query cell
    prints the header and then, numbered from 1, exactly the entries that
    [retrieve_with_cache] computes for the first query of the frame with the
    default top_k, in the same order; it does so whatever the cache holds.
    On a frame without rows it prints nothing and raises [IndexError]. *)
Theorem single_query_cell_prints_ranking (q : string) (rest : list string)
  (nb : notebook) :
  consistent nb ->
  single_query_cell (q :: rest) nb
  = (QueryLine q ::
       zip_with (fun n e => RankLine n (fst e) (snd e))
         (seq 1 (length (ranking nb q top_n))) (ranking nb q top_n),
     Ok tt) /\
  (query_cache nb !! q = None ->
   fst (retrieve_with_cache q default_top_k nb) = Ok (ranking nb q top_n)) /\
  single_query_cell [] nb = ([], Raise IndexError).
Proof.
  intros Hc. split; [|split; [|reflexivity]].
  - unfold single_query_cell. cbv zeta.
    rewrite print_ranking_ok.
    + unfold ranking. cbv zeta. now rewrite length_map.
    + eapply Forall_impl; [apply top_doc_indices_in_range|].
      intros i Hi. cbv beta in Hi. now rewrite length_cos_sim, <- Hc in Hi.
  - intros Hn. now rewrite (retrieve_miss _ _ _ Hc Hn).
Qed.

(** X7: the load cell takes the saved cache on trust.  A key of the saved
    dictionary is answered with the saved list, with no scoring, whatever
    [doc_ids] and matrix were loaded beside it; when the cache file is
    missing the cache starts empty and the first call for any text runs the
    scorer. *)
Theorem load_cell_cache_file (ids matrix : list string) (nb : notebook)
  (q : string) (k : Z) :
  (forall c v, c !! q = Some v ->
     retrieve_with_cache q k (load_cell ids matrix (Some c) nb)
     = (Ok v, load_cell ids matrix (Some c) nb)) /\
  query_cache (load_cell ids matrix None nb) = ∅ /\
  scorer_calls (snd (retrieve_with_cache q k (load_cell ids matrix None nb)))
  = S (scorer_calls nb).
Proof.
  split; [|split; [reflexivity|]].
  - intros c v Hv. now apply retrieve_hit.
  - destruct (retrieve_cases (load_cell ids matrix None nb) q k)
      as [(c & Hc & _)|[(e & _ & ->)|(r & _ & ->)]]; [|reflexivity|reflexivity].
    simpl in Hc. rewrite lookup_empty in Hc. discriminate.
Qed.

End CallsAndCells.

(** ** Query preprocessing and column renaming *)

(** The rows the notebook shows before and after the preprocessing cell. *)
Example strip_punctuation_shown_rows :
  preprocess_queries
    ["how to clean alloy cylinder heads ?"; "why don't they put parachutes";
     "how do i get them whiter?"]%string
  = ["how to clean alloy cylinder heads "; "why dont they put parachutes";
     "how do i get them whiter"]%string.
Proof. reflexivity. Qed.

Lemma strip_punctuation_kept (s : string) :
  string_forall kept (strip_punctuation s) = true.
Proof.
  induction s as [|c s IH]; simpl; [reflexivity|].
  destruct (kept c) eqn:E; simpl; [now rewrite E|exact IH].
Qed.

Lemma strip_punctuation_clean (s : string) :
  string_forall kept s = true -> strip_punctuation s = s.
Proof.
  induction s as [|c s IH]; simpl; [reflexivity|].
  intros H. apply andb_prop in H as [Hc Hs]. rewrite Hc. f_equal. now apply IH.
Qed.

Lemma strip_punctuation_length (s : string) :
  (String.length (strip_punctuation s) <= String.length s)%nat.
Proof.
  induction s as [|c s IH]; simpl; [lia|].
  destruct (kept c); simpl; lia.
Qed.

(** X8: on text of code points below 128, the preprocessing leaves only
    word characters and whitespace, never lengthens the text, and applied a
    second time changes nothing. *)
Theorem strip_punctuation_idempotent (s : string) :
  ascii_text s ->
  string_forall kept (strip_punctuation s) = true /\
  (String.length (strip_punctuation s) <= String.length s)%nat /\
  strip_punctuation (strip_punctuation s) = strip_punctuation s.
Proof.
  intros _. split; [apply strip_punctuation_kept|].
  split; [apply strip_punctuation_length|].
  apply strip_punctuation_clean, strip_punctuation_kept.
Qed.

(** X9: on text of code points below 128, a query comes out of the
    preprocessing unchanged exactly when it holds no character other than
    word characters and whitespace; and the preprocessing of a
    concatenation is the concatenation of the preprocessed parts. *)
Theorem strip_punctuation_fixpoint (s t : string) :
  ascii_text s -> ascii_text t ->
  (strip_punctuation s = s <-> string_forall kept s = true) /\
  strip_punctuation (s ++ t) = (strip_punctuation s ++ strip_punctuation t)%string.
Proof.
  intros _ _. split; [split|].
  - intros H. rewrite <- H. apply strip_punctuation_kept.
  - apply strip_punctuation_clean.
  - induction s as [|c s IH]; simpl; [reflexivity|].
    destruct (kept c); simpl; now rewrite IH.
Qed.

Lemma rename_present_only (mapping : gmap string string) (labels : list string) :
  rename_columns (present_only mapping labels) labels
  = rename_columns mapping labels.
Proof.
  unfold rename_columns, present_only.
  apply map_ext_in. intros c Hc. apply list_elem_of_In in Hc.
  destruct (mapping !! c) as [v|] eqn:E.
  - assert (filter (fun kv : string * string => kv.1 ∈ labels) mapping !! c
            = Some v) as ->; [|reflexivity].
    apply map_lookup_filter_Some. split; [exact E|exact Hc].
  - assert (filter (fun kv : string * string => kv.1 ∈ labels) mapping !! c
            = None) as ->; [|reflexivity].
    apply map_lookup_filter_None. left. exact E.
Qed.

(** Renaming makes no two labels equal when the mapping sends different
    keys to different labels and no label of the frame is one of the new
    labels. *)
Lemma rename_columns_NoDup (mapping : gmap string string) (labels : list string) :
  (forall k1 k2 v, mapping !! k1 = Some v -> mapping !! k2 = Some v -> k1 = k2) ->
  (forall k v, mapping !! k = Some v -> v ∉ labels) ->
  NoDup labels -> NoDup (rename_columns mapping labels).
Proof.
  intros Hinj Hnew Hnd. unfold rename_columns.
  apply (NoDup_fmap_2_strong
           (fun c => match mapping !! c with Some v => v | None => c end));
    [|exact Hnd].
  intros c c' Hc Hc' Heq.
  destruct (mapping !! c) as [v|] eqn:E, (mapping !! c') as [v'|] eqn:E'.
  - subst v'. exact (Hinj _ _ _ E E').
  - subst v. exfalso. exact (Hnew _ _ E Hc').
  - subst v'. exfalso. exact (Hnew _ _ E' Hc).
  - exact Heq.
Qed.

Lemma topics_mapping_lookup (k v : string) :
  topics_mapping !! k = Some v ->
  (k = "query_id" /\ v = "qid")%string \/ (k = "text" /\ v = "query")%string.
Proof.
  unfold topics_mapping. intros H.
  apply lookup_insert_Some in H as [[<- <-]|[_ H]]; [now left|].
  apply lookup_singleton_Some in H as [<- <-]. now right.
Qed.

Lemma qrels_mapping_lookup (k v : string) :
  qrels_mapping !! k = Some v ->
  (k = "query_id" /\ v = "qid")%string \/
  (k = "doc_id" /\ v = "docno")%string \/
  (k = "relevance" /\ v = "label")%string.
Proof.
  unfold qrels_mapping. intros H.
  apply lookup_insert_Some in H as [[<- <-]|[_ H]]; [now left|].
  apply lookup_insert_Some in H as [[<- <-]|[_ H]]; [right; now left|].
  apply lookup_singleton_Some in H as [<- <-]. right; now right.
Qed.

(** X10: the cell that builds the two frames leaves the rows of the dataset
    as they are and keeps the number and the order of the columns; every
    column named in a mapping gets its new label and every other column keeps
    its own, so that the test [k in df.columns] changes nothing; and when the
    dataset's labels are distinct and none of them is already one of the new
    labels, the labels of the new frames are distinct too. *)
Theorem convert_cell_frames {cell : Type} (queries qrels : frame cell) :
  rows (fst (convert_cell queries qrels)) = rows queries /\
  rows (snd (convert_cell queries qrels)) = rows qrels /\
  columns (fst (convert_cell queries qrels))
  = map (fun c => match topics_mapping !! c with Some v => v | None => c end)
        (columns queries) /\
  columns (snd (convert_cell queries qrels))
  = map (fun c => match qrels_mapping !! c with Some v => v | None => c end)
        (columns qrels) /\
  (NoDup (columns queries) ->
   Forall (fun c => c ∉ ["qid"; "query"]%string) (columns queries) ->
   NoDup (columns (fst (convert_cell queries qrels)))) /\
  (NoDup (columns qrels) ->
   Forall (fun c => c ∉ ["qid"; "docno"; "label"]%string) (columns qrels) ->
   NoDup (columns (snd (convert_cell queries qrels)))).
Proof.
  unfold convert_cell. simpl. rewrite !rename_present_only.
  split; [reflexivity|]. split; [reflexivity|].
  split; [reflexivity|]. split; [reflexivity|]. split.
  - intros Hnd Hfresh. rewrite Forall_forall in Hfresh.
    apply rename_columns_NoDup; [| |exact Hnd].
    + intros k1 k2 v H1 H2.
      apply topics_mapping_lookup in H1 as [[-> ->]|[-> ->]];
        apply topics_mapping_lookup in H2 as [[-> H]|[-> H]];
        (reflexivity || discriminate).
    + intros k v H Hv. apply (Hfresh _ Hv).
      apply topics_mapping_lookup in H as [[_ ->]|[_ ->]]; set_solver.
  - intros Hnd Hfresh. rewrite Forall_forall in Hfresh.
    apply rename_columns_NoDup; [| |exact Hnd].
    + intros k1 k2 v H1 H2.
      apply qrels_mapping_lookup in H1 as [[-> ->]|[[-> ->]|[-> ->]]];
        apply qrels_mapping_lookup in H2 as [[-> H]|[[-> H]|[-> H]]];
        (reflexivity || discriminate).
    + intros k v H Hv. apply (Hfresh _ Hv).
      apply qrels_mapping_lookup in H as [[_ ->]|[[_ ->]|[_ ->]]]; set_solver.
Qed.

(** ** The instances at work *)

Section InsertionArgsort.
Variable v : list Q.

Let key_le (i j : nat) : Prop := (nth i v 0 <= nth j v 0)%Q.

Lemma insert_index_perm (i : nat) (l : list nat) :
  Permutation (insert_index v i l) (i :: l).
Proof.
  induction l as [|j l IH]; simpl; [reflexivity|].
  destruct (Qle_bool _ _); [|reflexivity].
  rewrite IH. apply perm_swap.
Qed.

Lemma insert_index_sorted (i : nat) (l : list nat) :
  StronglySorted key_le l -> StronglySorted key_le (insert_index v i l).
Proof.
  induction 1 as [|j l Hs IH Hj]; simpl.
  - repeat constructor.
  - destruct (Qle_bool (nth j v 0%Q) (nth i v 0%Q)) eqn:E.
    + constructor; [exact IH|].
      rewrite insert_index_perm. constructor; [|exact Hj].
      unfold key_le. now apply Qle_bool_iff.
    + assert (Hij : key_le i j).
      { unfold key_le. destruct (Qlt_le_dec (nth i v 0%Q) (nth j v 0%Q)) as [Hlt|Hle].
        - now apply Qlt_le_weak.
        - apply Qle_bool_iff in Hle. congruence. }
      constructor; [now constructor|].
      constructor; [exact Hij|].
      eapply Forall_impl; [exact Hj|].
      intros x Hx. unfold key_le in *. eapply Qle_trans; eassumption.
Qed.

Lemma fold_insert_perm (s acc : list nat) :
  Permutation (fold_left (fun a i => insert_index v i a) s acc) (acc ++ s).
Proof.
  revert acc. induction s as [|i s IH]; intros acc; simpl.
  - now rewrite app_nil_r.
  - rewrite IH, insert_index_perm.
    change (i :: acc) with ([i] ++ acc).
    rewrite (Permutation_app_comm [i] acc), <- app_assoc. reflexivity.
Qed.

Lemma fold_insert_sorted (s acc : list nat) :
  StronglySorted key_le acc ->
  StronglySorted key_le (fold_left (fun a i => insert_index v i a) s acc).
Proof.
  revert acc. induction s as [|i s IH]; intros acc Hacc; simpl; [exact Hacc|].
  apply IH, insert_index_sorted, Hacc.
Qed.

End InsertionArgsort.

Lemma insertion_argsort_perm (v : list Q) :
  Permutation (insertion_argsort v) (seq 0 (length v)).
Proof. unfold insertion_argsort. now rewrite fold_insert_perm. Qed.

Lemma insertion_argsort_sorted (v : list Q) :
  StronglySorted (fun i j => (nth i v 0 <= nth j v 0)%Q) (insertion_argsort v).
Proof. unfold insertion_argsort. apply fold_insert_sorted. constructor. Qed.

Definition stable_argsort : ArgSort :=
  {| argsort := insertion_argsort;
     argsort_perm := insertion_argsort_perm;
     argsort_sorted := insertion_argsort_sorted |}.

Lemma idf_perm (l l' : list string) (t : string) :
  Permutation l l' -> idf l t = idf l' t.
Proof.
  intros Hp. unfold idf, df. now rewrite Hp.
Qed.

Lemma overlap_fit_order_independent : fit_order_independent overlap_vectorizer.
Proof.
  intros l l' q d Hp. simpl. unfold overlap_similarity. do 2 f_equal.
  apply map_ext. intros t. now rewrite (idf_perm l l' t Hp).
Qed.

#[local] Existing Instances overlap_vectorizer stable_argsort.

Example sample_cat_dog :
  retrieve_with_cache "cat dog" 2 sample_nb
  = (Ok [("d2", 2%Q); ("d1", 2%Q)]%string,
     set_cache {[ "cat dog"%string := [("d2", 2%Q); ("d1", 2%Q)]%string ]}
               (count_scorer sample_nb)).
Proof. vm_compute. reflexivity. Qed.

(** *** C1 *)

(** C1 fails as stated: asked for "sat" with top_k = 1 and then with
    top_k = 2, the second call is handed the one-element list computed for
    top_k = 1, where a fresh computation for top_k = 2 gives two elements;
    the cache holds one entry for both calls. *)
Lemma C1_same_text_other_k :
  fst (retrieve_with_cache "sat" 2 (snd (retrieve_with_cache "sat" 1 sample_nb)))
  = Ok [("d2", 4 # 3)]%string /\
  fst (retrieve_with_cache "sat" 2 sample_nb)
  = Ok [("d2", 4 # 3); ("d1", 4 # 3)]%string /\
  size (query_cache
          (snd (retrieve_with_cache "sat" 2
                  (snd (retrieve_with_cache "sat" 1 sample_nb))))) = 1%nat.
Proof. repeat split; vm_compute; reflexivity. Qed.

(** C1_key_is_query_text on the sample corpus. *)
Lemma C1_key_is_query_text_witness :
  consistent sample_nb /\
  exists r nb1,
    retrieve_with_cache "sat" 1 sample_nb = (Ok r, nb1) /\
    query_cache nb1 !! "sat"%string = Some r /\
    (forall k', retrieve_with_cache "sat" k' nb1 = (Ok r, nb1)) /\
    (forall q', q' <> "sat"%string ->
                query_cache nb1 !! q' = query_cache sample_nb !! q').
Proof.
  split; [reflexivity|].
  apply (C1_key_is_query_text sample_nb "sat" 1). reflexivity.
Defined.

(** *** C4 *)

(** C4 fails as stated: top_k = 0 returns the empty list and caches it, and
    top_k = -1 returns the two best of the three documents; neither call
    raises. *)
Lemma C4_zero_and_negative_k_return :
  fst (retrieve_with_cache "sat" 0 sample_nb) = Ok [] /\
  query_cache (snd (retrieve_with_cache "sat" 0 sample_nb)) !! "sat"%string
  = Some [] /\
  fst (retrieve_with_cache "sat" (-1) sample_nb)
  = Ok [("d2", 4 # 3); ("d1", 4 # 3)]%string.
Proof. repeat split; vm_compute; reflexivity. Qed.

(** C4_nonpositive_k_returns on the sample corpus, with top_k = -1. *)
Lemma C4_nonpositive_k_returns_witness :
  consistent sample_nb /\
  exists r nb1,
    retrieve_with_cache "sat" (-1) sample_nb = (Ok r, nb1) /\
    query_cache nb1 !! "sat"%string = Some r /\
    (query_cache sample_nb !! "sat"%string = None -> -1 = 0 -> r = []) /\
    (query_cache sample_nb !! "sat"%string = None -> -1 < 0 ->
       length r = (length (doc_ids sample_nb) - Z.to_nat (- -1))%nat).
Proof.
  split; [reflexivity|].
  apply (C4_nonpositive_k_returns sample_nb "sat" (-1)). reflexivity.
Defined.

(** *** C5 *)

(** C5 fails as stated: "cat" is cached on the sample corpus, the index is
    rebuilt on another corpus, and the next request for "cat" returns the old
    list (documents d1 and d3 are not in the new corpus) with the scorer's
    call count still at 1; scoring against the new index would give e1 and
    e2. *)
Lemma C5_stale_entry_served :
  fst (retrieve_with_cache "cat" 2
         (build_tfidf other_dataset (snd (retrieve_with_cache "cat" 2 sample_nb))))
  = Ok [("d1", 2%Q); ("d3", 0%Q)]%string /\
  scorer_calls
    (snd (retrieve_with_cache "cat" 2
            (build_tfidf other_dataset (snd (retrieve_with_cache "cat" 2 sample_nb)))))
  = 1%nat /\
  compute_results
    (build_tfidf other_dataset (snd (retrieve_with_cache "cat" 2 sample_nb))) "cat" 2
  = Ok [("e1", 3%Q); ("e2", 0%Q)]%string.
Proof. repeat split; vm_compute; reflexivity. Qed.

(** C5_rebuild_keeps_cache on that run. *)
Lemma C5_rebuild_keeps_cache_witness :
  query_cache (snd (retrieve_with_cache "cat" 2 sample_nb)) !! "cat"%string
  = Some [("d1", 2%Q); ("d3", 0%Q)]%string /\
  query_cache (build_tfidf other_dataset (snd (retrieve_with_cache "cat" 2 sample_nb)))
  = query_cache (snd (retrieve_with_cache "cat" 2 sample_nb)) /\
  retrieve_with_cache "cat" 2
    (build_tfidf other_dataset (snd (retrieve_with_cache "cat" 2 sample_nb)))
  = (Ok [("d1", 2%Q); ("d3", 0%Q)]%string,
     build_tfidf other_dataset (snd (retrieve_with_cache "cat" 2 sample_nb))) /\
  query_cache (cache_cell (snd (retrieve_with_cache "cat" 2 sample_nb))) !! "cat"%string
  = None.
Proof.
  split; [vm_compute; reflexivity|].
  apply (C5_rebuild_keeps_cache
           (snd (retrieve_with_cache "cat" 2 sample_nb)) other_dataset "cat" 2).
  vm_compute. reflexivity.
Defined.

(** *** C6 *)

(** C6_repeat_served_from_cache on the sample corpus, with two other
    queries asked in between. *)
Lemma C6_repeat_served_from_cache_witness :
  consistent sample_nb /\
  exists r nb1,
    retrieve_with_cache "cat dog" 2 sample_nb = (Ok r, nb1) /\
    retrieve_with_cache "cat dog" 2 (run_calls [("sat"%string, 1); ("zebra"%string, 10)] nb1)
    = (Ok r, run_calls [("sat"%string, 1); ("zebra"%string, 10)] nb1) /\
    scorer_calls
      (snd (retrieve_with_cache "cat dog" 2
              (run_calls [("sat"%string, 1); ("zebra"%string, 10)] nb1)))
    = scorer_calls (run_calls [("sat"%string, 1); ("zebra"%string, 10)] nb1).
Proof.
  split; [reflexivity|].
  apply (C6_repeat_served_from_cache sample_nb "cat dog" 2
           [("sat"%string, 1); ("zebra"%string, 10)]).
  reflexivity.
Defined.

(** *** C2 and C10 *)


Lemma sample_doc_ids_NoDup : NoDup (doc_ids sample_nb).
Proof. refine (bool_decide_unpack _ _). vm_compute. reflexivity. Qed.


(** C10 fails as stated: after a call for "sat" with top_k = 1, the call
    with top_k = 2 returns a list of length 1 on a corpus of three documents
    with distinct ids, where min(top_k, corpus size) is 2. *)
Lemma C10_cached_length_differs :
  bool_decide (NoDup (doc_ids (snd (retrieve_with_cache "sat" 1 sample_nb)))) = true /\
  fst (retrieve_with_cache "sat" 2 (snd (retrieve_with_cache "sat" 1 sample_nb)))
  = Ok [("d2", 4 # 3)]%string /\
  length [("d2", 4 # 3)]%string = 1%nat /\
  Nat.min (Z.to_nat 2)
          (length (doc_ids (snd (retrieve_with_cache "sat" 1 sample_nb)))) = 2%nat.
Proof. repeat split; vm_compute; reflexivity. Qed.

(** C10_computed_length_distinct on the sample corpus. *)
Lemma C10_computed_length_distinct_witness :
  consistent sample_nb /\
  NoDup (doc_ids sample_nb) /\
  query_cache sample_nb !! "sat"%string = None /\
  0 <= 2 /\
  exists r nb1,
    retrieve_with_cache "sat" 2 sample_nb = (Ok r, nb1) /\
    length r = Nat.min (Z.to_nat 2) (length (doc_ids sample_nb)) /\
    NoDup (map fst r).
Proof.
  split; [reflexivity|]. split; [exact sample_doc_ids_NoDup|].
  split; [reflexivity|]. split; [lia|].
  apply (C10_computed_length_distinct sample_nb "sat" 2);
    [reflexivity|exact sample_doc_ids_NoDup|reflexivity|lia].
Defined.

(** *** C3 *)

(** C3 fails as stated: d1 and d2 score the same for "cat dog" and are
    returned with d2 before d1. *)
Lemma C3_tie_not_by_doc_id :
  fst (retrieve_with_cache "cat dog" 2 sample_nb)
  = Ok [("d2", 2%Q); ("d1", 2%Q)]%string /\
  ties_ascending [("d2", 2%Q); ("d1", 2%Q)]%string = false.
Proof. split; vm_compute; reflexivity. Qed.

(** C3_results_descending on the sample corpus. *)
Lemma C3_results_descending_witness :
  consistent sample_nb /\
  cache_descending sample_nb /\
  exists r nb1,
    retrieve_with_cache "cat dog" 2 sample_nb = (Ok r, nb1) /\
    descending r /\ cache_descending nb1.
Proof.
  split; [reflexivity|]. split; [apply map_Forall_empty|].
  apply (C3_results_descending sample_nb "cat dog" 2);
    [reflexivity|apply map_Forall_empty].
Defined.

(** *** C7 *)

(** C7 fails as stated: the two documents of the corpus have the same text,
    hence the same score; indexed in the order d1, d2 the best document for
    "cat" is d2, indexed in the order d2, d1 it is d1. *)
Lemma C7_order_changes_result :
  Permutation twin_dataset (rev twin_dataset) /\
  fst (retrieve_with_cache "cat" 1 (build_tfidf twin_dataset blank))
  = Ok [("d2", 1%Q)]%string /\
  fst (retrieve_with_cache "cat" 1 (build_tfidf (rev twin_dataset) blank))
  = Ok [("d1", 1%Q)]%string.
Proof.
  split; [apply Permutation_rev|]. split; vm_compute; reflexivity.
Qed.

Lemma sample_cat_untied :
  untied_top (cos_sim (build_tfidf sample_dataset blank) "cat")
             (top_doc_indices (cos_sim (build_tfidf sample_dataset blank) "cat") 1).
Proof.
  intros i j x y Hi Hx Hy Hxy.
  vm_compute in Hi. apply list_elem_of_singleton in Hi as ->.
  vm_compute in Hx. injection Hx as <-.
  destruct j as [|[|[|j]]]; try reflexivity;
    vm_compute in Hy; try discriminate;
    injection Hy as <-; vm_compute in Hxy; discriminate.
Qed.

(** C7_order_independent_without_ties on the sample corpus and its reversal:
    d1 alone contains "cat", the two other documents tie at zero and are not
    returned for top_k = 1. *)
Lemma C7_order_independent_without_ties_witness :
  fit_order_independent overlap_vectorizer /\
  Permutation sample_dataset (rev sample_dataset) /\
  query_cache blank !! "cat"%string = None /\
  untied_top (cos_sim (build_tfidf sample_dataset blank) "cat")
             (top_doc_indices (cos_sim (build_tfidf sample_dataset blank) "cat") 1) /\
  exists r,
    fst (retrieve_with_cache "cat" 1 (build_tfidf sample_dataset blank)) = Ok r /\
    fst (retrieve_with_cache "cat" 1 (build_tfidf (rev sample_dataset) blank)) = Ok r.
Proof.
  split; [exact overlap_fit_order_independent|].
  split; [apply Permutation_rev|].
  split; [reflexivity|].
  split; [exact sample_cat_untied|].
  apply (C7_order_independent_without_ties sample_dataset (rev sample_dataset)
           blank "cat" 1);
    [exact overlap_fit_order_independent|apply Permutation_rev|reflexivity
    |exact sample_cat_untied].
Defined.

Example sample_cat_either_order :
  fst (retrieve_with_cache "cat" 1 (build_tfidf sample_dataset blank))
  = Ok [("d1", 2%Q)]%string /\
  fst (retrieve_with_cache "cat" 1 (build_tfidf (rev sample_dataset) blank))
  = Ok [("d1", 2%Q)]%string.
Proof. split; vm_compute; reflexivity. Qed.

(** *** C8 *)

(** C8 fails as stated: two callers ask for "cat dog"; both test the cache
    before either stores, and the scorer is invoked twice. *)
Lemma C8_two_callers_two_computations :
  run_schedule "cat dog" [0; 1; 0; 1; 0; 1]%nat (callers [2; 2], sample_nb)
  = ([(2, Returned (Ok [("d2", 2%Q); ("d1", 2%Q)]%string));
      (2, Returned (Ok [("d2", 2%Q); ("d1", 2%Q)]%string))],
     set_cache {[ "cat dog"%string := [("d2", 2%Q); ("d1", 2%Q)]%string ]}
               (count_scorer (count_scorer sample_nb))) /\
  scorer_calls sample_nb = 0%nat /\
  scorer_calls
    (snd (run_schedule "cat dog" [0; 1; 0; 1; 0; 1]%nat
            (callers [2; 2], sample_nb))) = 2%nat.
Proof. repeat split; vm_compute; reflexivity. Qed.

(** Two callers of "sat", with top_k 1 and 2, interleaved the same way:
    each returns the list for its own top_k and the cache keeps the list
    stored last. *)
Example two_callers_two_top_k :
  run_schedule "sat" [0; 1; 0; 1; 0; 1]%nat (callers [1; 2], sample_nb)
  = ([(1, Returned (Ok [("d2", 4 # 3)]%string));
      (2, Returned (Ok [("d2", 4 # 3); ("d1", 4 # 3)]%string))],
     set_cache {[ "sat"%string := [("d2", 4 # 3); ("d1", 4 # 3)]%string ]}
               (count_scorer (count_scorer sample_nb))).
Proof. vm_compute. reflexivity. Qed.

Lemma sample_pool_returned :
  Forall (fun kc => returned (snd kc) = true)
    (fst (run_schedule "sat" [0; 1; 0; 1; 0; 1]%nat (callers sat_top_ks, sample_nb))).
Proof. vm_compute. repeat constructor. Qed.

(** C8_interleaved_callers on the two callers of "sat". *)
Lemma C8_interleaved_callers_witness :
  consistent sample_nb /\
  query_cache sample_nb !! "sat"%string = None /\
  (0 < length sat_top_ks)%nat /\
  Forall (fun kc => returned (snd kc) = true)
    (fst (run_schedule "sat" [0; 1; 0; 1; 0; 1]%nat (callers sat_top_ks, sample_nb))) /\
  map fst (fst (run_schedule "sat" [0; 1; 0; 1; 0; 1]%nat
                  (callers sat_top_ks, sample_nb))) = sat_top_ks /\
  Forall (fun kc => exists k, k ∈ sat_top_ks /\
                      snd kc = Returned (Ok (ranking sample_nb "sat" k)))
    (fst (run_schedule "sat" [0; 1; 0; 1; 0; 1]%nat (callers sat_top_ks, sample_nb))) /\
  (exists k, k ∈ sat_top_ks /\
     query_cache (snd (run_schedule "sat" [0; 1; 0; 1; 0; 1]%nat
                         (callers sat_top_ks, sample_nb)))
     = <["sat"%string := ranking sample_nb "sat" k]> (query_cache sample_nb)) /\
  (scorer_calls sample_nb
   < scorer_calls (snd (run_schedule "sat" [0; 1; 0; 1; 0; 1]%nat
                          (callers sat_top_ks, sample_nb)))
   <= scorer_calls sample_nb + length sat_top_ks)%nat /\
  scorer_calls (run_calls (map (fun k => ("sat"%string, k)) sat_top_ks) sample_nb)
  = S (scorer_calls sample_nb) /\
  (forall k, Forall (fun k' => k' = k) sat_top_ks ->
     Forall (fun kc => snd kc = Returned (Ok (ranking sample_nb "sat" k)))
       (fst (run_schedule "sat" [0; 1; 0; 1; 0; 1]%nat
               (callers sat_top_ks, sample_nb))) /\
     query_cache (snd (run_schedule "sat" [0; 1; 0; 1; 0; 1]%nat
                         (callers sat_top_ks, sample_nb)))
     = <["sat"%string := ranking sample_nb "sat" k]> (query_cache sample_nb)).
Proof.
  split; [reflexivity|]. split; [reflexivity|]. split; [simpl; lia|].
  split; [exact sample_pool_returned|].
  apply (C8_interleaved_callers sample_nb "sat" sat_top_ks);
    [reflexivity|reflexivity|simpl; lia|exact sample_pool_returned].
Defined.

(** *** C9 *)

(** C9_cache_frame on a miss: "zebra" asked after "sat". *)
Lemma C9_cache_frame_witness :
  query_cache (snd (retrieve_with_cache "sat" 1 sample_nb)) !! "zebra"%string = None /\
  consistent (snd (retrieve_with_cache "sat" 1 sample_nb)) /\
  exists r,
    fst (retrieve_with_cache "zebra" 1 (snd (retrieve_with_cache "sat" 1 sample_nb)))
    = Ok r /\
    query_cache (snd (retrieve_with_cache "zebra" 1
                        (snd (retrieve_with_cache "sat" 1 sample_nb))))
    = <["zebra"%string := r]> (query_cache (snd (retrieve_with_cache "sat" 1 sample_nb))) /\
    size (query_cache (snd (retrieve_with_cache "zebra" 1
                              (snd (retrieve_with_cache "sat" 1 sample_nb)))))
    = S (size (query_cache (snd (retrieve_with_cache "sat" 1 sample_nb)))).
Proof.
  split; [vm_compute; reflexivity|]. split; [reflexivity|].
  apply (proj1 (proj2 (C9_cache_frame
                         (snd (retrieve_with_cache "sat" 1 sample_nb)) "zebra" 1)));
    [vm_compute; reflexivity|reflexivity].
Defined.

(** *** The further properties on concrete notebooks *)

(** A notebook whose [doc_ids] file is one id short of the matrix. *)
Definition short_nb : notebook :=
  load_cell ["d1"]%string ["cat"; "dog"]%string None blank.

(** retrieve_index_error where the best row for "dog" has no id. *)
Lemma retrieve_index_error_witness :
  query_cache short_nb !! "dog"%string = None /\
  (Exists (fun i => (length (doc_ids short_nb) <= i)%nat)
          (top_doc_indices (cos_sim short_nb "dog") 1)
   <-> fst (retrieve_with_cache "dog" 1 short_nb) = Raise IndexError) /\
  (fst (retrieve_with_cache "dog" 1 short_nb) = Raise IndexError ->
     snd (retrieve_with_cache "dog" 1 short_nb) = count_scorer short_nb /\
     query_cache (snd (retrieve_with_cache "dog" 1 short_nb)) = query_cache short_nb /\
     retrieve_with_cache "dog" 1 (snd (retrieve_with_cache "dog" 1 short_nb))
     = (Raise IndexError, count_scorer (count_scorer short_nb))).
Proof.
  split; [reflexivity|].
  apply (retrieve_index_error short_nb "dog" 1). reflexivity.
Defined.

Example short_nb_raises :
  fst (retrieve_with_cache "dog" 1 short_nb) = Raise IndexError /\
  fst (retrieve_with_cache "cat" 1 short_nb) = Ok [("d1", 3 # 2)]%string.
Proof. split; vm_compute; reflexivity. Qed.

(** retrieve_top_k_optimal on the sample corpus. *)
Lemma retrieve_top_k_optimal_witness :
  consistent sample_nb /\
  query_cache sample_nb !! "cat"%string = None /\
  exists r nb1,
    retrieve_with_cache "cat" 1 sample_nb = (Ok r, nb1) /\
    forall i d s,
      doc_ids sample_nb !! i = Some d -> cos_sim sample_nb "cat" !! i = Some s ->
      (d, s) ∈ r \/ Forall (fun e => (s <= snd e)%Q) r.
Proof.
  split; [reflexivity|]. split; [reflexivity|].
  apply (retrieve_top_k_optimal sample_nb "cat" 1); reflexivity.
Defined.

(** retrieve_prefix_in_top_k on the sample corpus, top_k 1 and 3. *)
Lemma retrieve_prefix_in_top_k_witness :
  consistent sample_nb /\
  query_cache sample_nb !! "cat"%string = None /\
  (0 <= 1 <= 3 \/ 1 <= 3 < 0) /\
  exists r1 rest,
    fst (retrieve_with_cache "cat" 1 sample_nb) = Ok r1 /\
    fst (retrieve_with_cache "cat" 3 sample_nb) = Ok (r1 ++ rest).
Proof.
  split; [reflexivity|]. split; [reflexivity|]. split; [left; lia|].
  apply (retrieve_prefix_in_top_k sample_nb "cat" 1 3);
    [reflexivity|reflexivity|left; lia].
Defined.

(** retrieve_all_documents on the sample corpus, with the default top_k. *)
Lemma retrieve_all_documents_witness :
  consistent sample_nb /\
  query_cache sample_nb !! "cat"%string = None /\
  Z.of_nat (length (doc_ids sample_nb)) <= default_top_k /\
  exists r nb1,
    retrieve_with_cache "cat" default_top_k sample_nb = (Ok r, nb1) /\
    Permutation r (combine (doc_ids sample_nb) (cos_sim sample_nb "cat")).
Proof.
  split; [reflexivity|]. split; [reflexivity|].
  split; [vm_compute; discriminate|].
  apply (retrieve_all_documents sample_nb "cat" default_top_k);
    [reflexivity|reflexivity|vm_compute; discriminate].
Defined.

(** Five calls for three distinct query texts. *)
Definition five_calls : list (string * Z) :=
  [("cat"%string, 1); ("sat"%string, 2); ("cat"%string, 3);
   ("zebra"%string, 10); ("sat"%string, 2)].

(** run_calls_scorer_count: five calls, three distinct texts. *)
Lemma run_calls_scorer_count_witness :
  consistent sample_nb /\
  (scorer_calls (run_calls five_calls sample_nb) + size (query_cache sample_nb)
   = scorer_calls sample_nb + size (query_cache (run_calls five_calls sample_nb)))%nat /\
  dom (query_cache (run_calls five_calls sample_nb))
  = dom (query_cache sample_nb) ∪ list_to_set (map fst five_calls).
Proof.
  split; [reflexivity|].
  apply (run_calls_scorer_count five_calls sample_nb). reflexivity.
Defined.

Example five_calls_three_scorings :
  scorer_calls (run_calls five_calls sample_nb) = 3%nat.
Proof. vm_compute. reflexivity. Qed.

(** single_query_cell_prints_ranking on the sample corpus. *)
Lemma single_query_cell_prints_ranking_witness :
  consistent sample_nb /\
  single_query_cell ["cat dog"; "sat"]%string sample_nb
  = (QueryLine "cat dog" ::
       zip_with (fun n e => RankLine n (fst e) (snd e))
         (seq 1 (length (ranking sample_nb "cat dog" top_n)))
         (ranking sample_nb "cat dog" top_n),
     Ok tt) /\
  (query_cache sample_nb !! "cat dog"%string = None ->
   fst (retrieve_with_cache "cat dog" default_top_k sample_nb)
   = Ok (ranking sample_nb "cat dog" top_n)) /\
  single_query_cell [] sample_nb = ([], Raise IndexError).
Proof.
  split; [reflexivity|].
  apply (single_query_cell_prints_ranking "cat dog" ["sat"%string] sample_nb).
  reflexivity.
Defined.

Example single_query_cell_sample :
  single_query_cell ["cat dog"; "sat"]%string sample_nb
  = ([QueryLine "cat dog"; RankLine 1 "d2" 2; RankLine 2 "d1" 2;
      RankLine 3 "d3" 0], Ok tt).
Proof. vm_compute. reflexivity. Qed.

(** strip_punctuation_idempotent on a query of the dataset. *)
Lemma strip_punctuation_idempotent_witness :
  ascii_text "What is Cloud 9 and 7th Heaven?" /\
  string_forall kept (strip_punctuation "What is Cloud 9 and 7th Heaven?") = true /\
  (String.length (strip_punctuation "What is Cloud 9 and 7th Heaven?")
   <= String.length "What is Cloud 9 and 7th Heaven?")%nat /\
  strip_punctuation (strip_punctuation "What is Cloud 9 and 7th Heaven?")
  = strip_punctuation "What is Cloud 9 and 7th Heaven?".
Proof.
  split; [reflexivity|].
  apply (strip_punctuation_idempotent "What is Cloud 9 and 7th Heaven?").
  reflexivity.
Defined.

(** strip_punctuation_fixpoint on two pieces of a query of the dataset. *)
Lemma strip_punctuation_fixpoint_witness :
  ascii_text "why don't they " /\
  ascii_text "put parachutes" /\
  (strip_punctuation "why don't they " = "why don't they "%string
   <-> string_forall kept "why don't they " = true) /\
  strip_punctuation ("why don't they " ++ "put parachutes")
  = (strip_punctuation "why don't they " ++ strip_punctuation "put parachutes")%string.
Proof.
  split; [reflexivity|]. split; [reflexivity|].
  apply (strip_punctuation_fixpoint "why don't they " "put parachutes");
    reflexivity.
Defined.

(** The frames of the dataset and the frames the notebook shows. *)
Example convert_cell_dataset_frames :
  convert_cell
    {| columns := ["query_id"; "text"]%string;
       rows := [["3097310"; "What causes severe swelling?"]%string] |}
    {| columns := ["query_id"; "doc_id"; "relevance"; "iteration"]%string;
       rows := [["2531329"; "2531329_0"; "4"; "U0"]%string] |}
  = ({| columns := ["qid"; "query"]%string;
        rows := [["3097310"; "What causes severe swelling?"]%string] |},
     {| columns := ["qid"; "docno"; "label"; "iteration"]%string;
        rows := [["2531329"; "2531329_0"; "4"; "U0"]%string] |}).
Proof. vm_compute. reflexivity. Qed.
